(** * Glosentra: inference serving and asynchronous telemetry

    A shallow embedding of the concurrent core of the Glosentra web
    backend:

    - [core/db.py]             (module [Db]): the telemetry queue, the
      background writer and the aggregate queries;
    - [services/analytics.py]  (module [Analytics]): the facade that turns a
      finished run into telemetry writes;
    - [core/model_registry.py] (module [Registry]): the lazily populated,
      lock-protected model registry;
    - [core/inference.py]      (module [Inference]): the decode / infer /
      postprocess pipeline and the pooled, time-limited submission.

    Conventions.  Python [float] values are modelled as exact rationals
    ([Q]); Python dictionaries as [gmap]; the outside world (file system,
    model constructor, image decoders, SQLite faults) enters as explicit
    parameters of the functions that consult it. *)

From Stdlib Require Import ZArith QArith Qround Lia List Bool Sorted.
From stdpp Require Import gmap strings list fin_maps pretty.

Local Open Scope string_scope.
Local Open Scope list_scope.

(** ** Shared numeric helpers *)

(** [round(x, 2)] of Python: the nearest multiple of 1/100, halves going to
    the even neighbour. *)
Definition round_half_even (q : Q) : Z :=
  let f := Qfloor q in
  let r := (q - inject_Z f)%Q in
  match (r ?= 1 # 2)%Q with
  | Lt => f
  | Gt => (f + 1)%Z
  | Eq => if Z.even f then f else (f + 1)%Z
  end.

Definition round2 (q : Q) : Q := (inject_Z (round_half_even (q * 100)) / 100)%Q.

(** [x > 0] *)
Definition Qpositive (q : Q) : bool := negb (Qle_bool q 0).

(** *** Facts about rounding *)

Lemma round_half_even_range (q : Q) :
  (Qfloor q <= round_half_even q <= Qfloor q + 1)%Z.
Proof.
  unfold round_half_even.
  destruct (q - inject_Z (Qfloor q) ?= 1 # 2)%Q; [destruct (Z.even (Qfloor q))| |]; lia.
Qed.



(** Rounding never reverses an order. *)
Lemma round_half_even_mono (x y : Q) :
  (x <= y)%Q -> (round_half_even x <= round_half_even y)%Z.
Proof.
  intros Hxy.
  pose proof (Qfloor_resp_le x y Hxy) as Hfloor.
  pose proof (round_half_even_range x) as Hx.
  pose proof (round_half_even_range y) as Hy.
  destruct (Z.eq_dec (Qfloor x) (Qfloor y)) as [Heq|Hne]; [|lia].
  unfold round_half_even. rewrite <- Heq.
  assert (Hr : (x - inject_Z (Qfloor x) <= y - inject_Z (Qfloor x))%Q).
  { apply Qplus_le_l with (z := inject_Z (Qfloor x)).
    ring_simplify. exact Hxy. }
  destruct (x - inject_Z (Qfloor x) ?= 1 # 2)%Q eqn:Hcx;
    destruct (y - inject_Z (Qfloor x) ?= 1 # 2)%Q eqn:Hcy;
    try (destruct (Z.even (Qfloor x))); try lia; exfalso;
    repeat match goal with
           | H : (_ ?= _)%Q = Eq |- _ => apply Qeq_alt in H
           | H : (_ ?= _)%Q = Lt |- _ => apply Qlt_alt in H
           | H : (_ ?= _)%Q = Gt |- _ => apply Qgt_alt in H
           end;
    first [ rewrite Hcx in Hr; exact (Qlt_not_le _ _ Hcy Hr)
          | rewrite Hcy in Hr; exact (Qlt_not_le _ _ Hcx Hr)
          | exact (Qlt_not_le _ _ (Qlt_trans _ _ _ Hcy Hcx) Hr) ].
Qed.

Lemma round2_mono (x y : Q) : (x <= y)%Q -> (round2 x <= round2 y)%Q.
Proof.
  intros Hxy. unfold round2.
  apply Qmult_le_compat_r; [|discriminate].
  rewrite <- Zle_Qle. apply round_half_even_mono.
  apply Qmult_le_compat_r; [exact Hxy|discriminate].
Qed.


(** ** core/db.py *)

Module Db.

(** A queued write: the dictionary [{'table': ..., 'data': {...}}]. *)
Record InferenceRunData := {
  ir_task : string;
  ir_model_path : string;
  ir_inference_time_ms : Q;
  ir_total_time_ms : Q;
  ir_fps : Q;
  ir_success : bool;
  ir_error_message : option string;
  ir_image_size_bytes : Z
}.

Record ModelUsageData := {
  mu_task : string;
  mu_model_path : string
}.

Inductive QueueItem :=
| InferenceRuns (data : InferenceRunData)
| ModelUsage (data : ModelUsageData).

(** [queue.Queue]: [maxsize = 0] means unbounded. *)
Record Queue := {
  maxsize : nat;
  items : list QueueItem
}.

Definition Queue_new : Queue := {| maxsize := 0; items := [] |}.

Definition qsize (q : Queue) : nat := length (items q).

(** Outcome of a queue operation together with the time the caller spent
    blocked inside it. *)
Inductive PutResult :=
| PutDone (q : Queue)
| PutFull.

(** [Queue.put(item, timeout=t)]: only a bounded queue that is full makes the
    caller wait; after [t] it raises [Full]. *)
Definition put (q : Queue) (item : QueueItem) (timeout : Q) : PutResult * Q :=
  if (0 <? maxsize q)%nat && (maxsize q <=? qsize q)%nat
  then (PutFull, timeout)
  else (PutDone {| maxsize := maxsize q; items := items q ++ [item] |}, 0%Q).

Inductive LogLevel := Warning | Error.

(** Rows of the two tables. *)
Record InferenceRunRow := {
  row_id : nat;
  row_data : InferenceRunData
}.

Record ModelUsageRow := {
  usage_id : nat;
  usage_data : ModelUsageData;
  usage_run_count : nat
}.

Record Tables := {
  inference_runs : list InferenceRunRow;
  model_usage : list ModelUsageRow
}.

(** The [AnalyticsDB] object.  [journal] records every transaction the
    writer attempted, with the batch and whether it was committed; [blocked]
    accumulates the time producers spent blocked in [put]. *)
Record AnalyticsDB := {
  _write_queue : Queue;
  _stop_event : bool;
  tables : Tables;
  logged : list (LogLevel * string);
  journal : list (list QueueItem * bool);
  blocked : Q
}.

Definition AnalyticsDB_new : AnalyticsDB :=
  {| _write_queue := Queue_new;
     _stop_event := false;
     tables := {| inference_runs := []; model_usage := [] |};
     logged := [];
     journal := [];
     blocked := 0 |}.

Definition with_queue (db : AnalyticsDB) (q : Queue) (waited : Q) : AnalyticsDB :=
  {| _write_queue := q;
     _stop_event := _stop_event db;
     tables := tables db;
     logged := logged db;
     journal := journal db;
     blocked := (blocked db + waited)%Q |}.

Definition with_log (db : AnalyticsDB) (lvl : LogLevel) (msg : string) : AnalyticsDB :=
  {| _write_queue := _write_queue db;
     _stop_event := _stop_event db;
     tables := tables db;
     logged := logged db ++ [(lvl, msg)];
     journal := journal db;
     blocked := blocked db |}.

(** [timing.get(key, 0)] *)
Definition timing_get (timing : gmap string Q) (key : string) : Q :=
  default 0%Q (timing !! key).

Definition inference_write (task model_path : string) (timing : gmap string Q)
    (success : bool) (error_message : option string) (image_size : Z) : QueueItem :=
  InferenceRuns
    {| ir_task := task;
       ir_model_path := model_path;
       ir_inference_time_ms := timing_get timing "inference_ms";
       ir_total_time_ms := timing_get timing "total_ms";
       ir_fps := timing_get timing "fps";
       ir_success := success;
       ir_error_message := error_message;
       ir_image_size_bytes := image_size |}.

Definition usage_write (task model_path : string) : QueueItem :=
  ModelUsage {| mu_task := task; mu_model_path := model_path |}.

(** [put] inside [try: ... except: pass]. *)
Definition try_put (db : AnalyticsDB) (item : QueueItem) : AnalyticsDB :=
  match put (_write_queue db) item (1 # 10) with
  | (PutDone q, waited) => with_queue db q waited
  | (PutFull, waited) => with_queue db (_write_queue db) waited
  end.

Definition log_inference (db : AnalyticsDB) (task model_path : string)
    (timing : gmap string Q) (success : bool) (error_message : option string)
    (image_size : Z) : AnalyticsDB :=
  if (1000 <? qsize (_write_queue db))%nat
  then with_log db Warning "Analytics queue is full, dropping writes"
  else try_put db (inference_write task model_path timing success error_message image_size).

Definition log_model_usage (db : AnalyticsDB) (task model_path : string) : AnalyticsDB :=
  try_put db (usage_write task model_path).

(** *** The background writer *)

(** [Queue.get(timeout=t)]: the head if there is one, else [Empty] after
    waiting [t].  The second component is the time spent waiting. *)
Definition get (q : Queue) (timeout : Q) : option (QueueItem * Queue) * Q :=
  match items q with
  | x :: rest => (Some (x, {| maxsize := maxsize q; items := rest |}), 0%Q)
  | [] => (None, timeout)
  end.

(** [while len(writes) < 100: writes.append(get_nowait())], leaving the loop
    on [Empty].  Returns the batch and what stays queued. *)
Fixpoint drain_nowait (pending writes : list QueueItem) : list QueueItem * list QueueItem :=
  match pending with
  | [] => (writes, [])
  | x :: rest =>
      if (length writes <? 100)%nat
      then drain_nowait rest (writes ++ [x])
      else (writes, pending)
  end.

Definition insert_write (t : Tables) (w : QueueItem) : Tables :=
  match w with
  | InferenceRuns d =>
      {| inference_runs :=
           inference_runs t ++ [{| row_id := S (length (inference_runs t)); row_data := d |}];
         model_usage := model_usage t |}
  | ModelUsage d =>
      {| inference_runs := inference_runs t;
         model_usage :=
           model_usage t ++ [{| usage_id := S (length (model_usage t));
                                usage_data := d; usage_run_count := 1 |}] |}
  end.

(** The statements of one transaction: one INSERT per write, then COMMIT.
    [fault = Some k] makes the [k]-th statement raise; [None] is the
    outcome of the aborted [with] block. *)
Fixpoint run_statements (t : Tables) (writes : list QueueItem) (fault : option nat)
  : option Tables :=
  match fault with
  | Some O => None
  | _ =>
      match writes with
      | [] => Some t
      | w :: ws => run_statements (insert_write t w) ws (Nat.pred <$> fault)
      end
  end.

Definition _execute_batch_write (db : AnalyticsDB) (writes : list QueueItem)
    (fault : option nat) : AnalyticsDB :=
  match run_statements (tables db) writes fault with
  | Some t =>
      {| _write_queue := _write_queue db;
         _stop_event := _stop_event db;
         tables := t;
         logged := logged db;
         journal := journal db ++ [(writes, true)];
         blocked := blocked db |}
  | None =>
      {| _write_queue := _write_queue db;
         _stop_event := _stop_event db;
         tables := tables db;
         logged := logged db ++ [(Error, "Batch write error")];
         journal := journal db ++ [(writes, false)];
         blocked := blocked db |}
  end.

(** One pass through the body of the [while] loop of [_background_writer];
    the second component is the time the writer spent waiting in [get]. *)
Definition writer_iteration (db : AnalyticsDB) (fault : option nat) : AnalyticsDB * Q :=
  match get (_write_queue db) 1 with
  | (None, waited) => (db, waited)
  | (Some (x, q), waited) =>
      let '(writes, rest) := drain_nowait (items q) [x] in
      let db1 := with_queue db {| maxsize := maxsize q; items := rest |} 0 in
      (match writes with
       | [] => db1
       | _ :: _ => _execute_batch_write db1 writes fault
       end, waited)
  end.

(** [_background_writer]: one iteration per element of [faults] (the fate of
    the transaction of that iteration), for as long as the stop event is
    clear. *)
Fixpoint _background_writer (db : AnalyticsDB) (faults : list (option nat)) : AnalyticsDB :=
  match faults with
  | [] => db
  | f :: fs =>
      if _stop_event db then db
      else _background_writer (fst (writer_iteration db f)) fs
  end.

(** *** Aggregate queries *)

Record Stats := {
  total_runs : nat;
  success_rate : Q;
  avg_fps : Q;
  avg_inference_time_ms : Q;
  task_stats : gmap string (nat * Q)
}.

Definition Qnat (n : nat) : Q := inject_Z (Z.of_nat n).

(** SQL [AVG]: a running sum and count; NULL over no rows. *)
Definition sql_avg (xs : list Q) : option Q :=
  let '(s, n) := fold_left (fun '(s, n) x => ((s + x)%Q, S n)) xs (0%Q, O) in
  match n with
  | O => None
  | S _ => Some (s / Qnat n)%Q
  end.

Definition is_success (r : InferenceRunRow) : bool := ir_success (row_data r).
Definition fps_of (r : InferenceRunRow) : Q := ir_fps (row_data r).
Definition inference_time_of (r : InferenceRunRow) : Q := ir_inference_time_ms (row_data r).
Definition task_of (r : InferenceRunRow) : string := ir_task (row_data r).

(** [GROUP BY task]: per task, the number of rows and the sum of fps. *)
Definition group_step (acc : gmap string (nat * Q)) (r : InferenceRunRow)
  : gmap string (nat * Q) :=
  let '(n, s) := default (O, 0%Q) (acc !! task_of r) in
  <[task_of r := (S n, (s + fps_of r)%Q)]> acc.

Definition group_by_task (rows : list InferenceRunRow) : gmap string (nat * Q) :=
  fold_left group_step rows ∅.

Definition zero_stats : Stats :=
  {| total_runs := 0; success_rate := 0; avg_fps := 0;
     avg_inference_time_ms := 0; task_stats := ∅ |}.

(** [get_stats]; [conn = None] is the case where SQLite raises and the
    [except] branch answers. *)
Definition get_stats (conn : option Tables) : Stats :=
  match conn with
  | None => zero_stats
  | Some t =>
      let rows := inference_runs t in
      let total := length rows in
      let success_runs := length (List.filter is_success rows) in
      let rate := if (0 <? total)%nat then (Qnat success_runs / Qnat total * 100)%Q else 0%Q in
      let fps :=
        default 0%Q
          (sql_avg (map fps_of (List.filter (fun r => is_success r && Qpositive (fps_of r)) rows))) in
      let inference :=
        default 0%Q (sql_avg (map inference_time_of (List.filter is_success rows))) in
      let groups := group_by_task (List.filter is_success rows) in
      {| total_runs := total;
         success_rate := round2 rate;
         avg_fps := round2 fps;
         avg_inference_time_ms := round2 inference;
         task_stats := (fun '(n, s) => (n, (s / Qnat n)%Q)) <$> groups |}
  end.


(** *** Reference notions used to state the aggregate contract *)





(** The synthetic telemetry of the stats scenario: ten successful detect runs
    with fps 10, 20, ..., 100 and two failed runs. *)
Definition run_row (id : nat) (task : string) (fps ms : Q) (ok : bool) : InferenceRunRow :=
  {| row_id := id;
     row_data :=
       {| ir_task := task; ir_model_path := "models/weights/yolo11n.pt";
          ir_inference_time_ms := ms; ir_total_time_ms := ms; ir_fps := fps;
          ir_success := ok;
          ir_error_message := if ok then None else Some "Inference timeout";
          ir_image_size_bytes := 1024 |} |}.




(** A fresh sink after [n] model-usage writes and no writer activity. *)
Definition after_usage_writes (n : nat) : AnalyticsDB :=
  Nat.iter n (fun db => log_model_usage db "detect" "models/weights/yolo11n.pt")
    AnalyticsDB_new.

Definition after_inference_writes (n : nat) : AnalyticsDB :=
  Nat.iter n (fun db => log_inference db "detect" "models/weights/yolo11n.pt" ∅ true None 0)
    AnalyticsDB_new.

(** *** Facts about the queue *)

Lemma put_unbounded (q : Queue) (item : QueueItem) (timeout : Q) :
  maxsize q = 0%nat ->
  put q item timeout = (PutDone {| maxsize := 0; items := items q ++ [item] |}, 0%Q).
Proof.
  intros Hm. unfold put. rewrite Hm. reflexivity.
Qed.

Lemma try_put_unbounded (db : AnalyticsDB) (item : QueueItem) :
  maxsize (_write_queue db) = 0%nat ->
  _write_queue (try_put db item) = {| maxsize := 0; items := items (_write_queue db) ++ [item] |}.
Proof.
  intros Hm. unfold try_put. rewrite (put_unbounded _ _ _ Hm). reflexivity.
Qed.

Lemma log_model_usage_grows (db : AnalyticsDB) (task model_path : string) :
  maxsize (_write_queue db) = 0%nat ->
  qsize (_write_queue (log_model_usage db task model_path)) = S (qsize (_write_queue db)).
Proof.
  intros Hm. unfold log_model_usage. rewrite (try_put_unbounded _ _ Hm).
  unfold qsize. simpl. rewrite length_app. simpl. lia.
Qed.

(** C3 (the code at the failing input).  The queue is created unbounded and
    only [log_inference] looks at its size, with a strict comparison: a fresh
    sink that receives 1001 model-usage writes holds 1001 items, and a sink
    holding exactly 1000 items still accepts an inference write.  No producer
    ever waits. *)
Theorem queue_grows_past_capacity :
  qsize (_write_queue (after_usage_writes 1001)) = 1001%nat
  /\ qsize (_write_queue (after_inference_writes 1000)) = 1000%nat
  /\ qsize (_write_queue (log_inference (after_inference_writes 1000)
                           "detect" "models/weights/yolo11n.pt" ∅ true None 0)) = 1001%nat
  /\ (blocked (after_usage_writes 1001) == 0)%Q.
Proof.
  repeat split; vm_compute; reflexivity.
Qed.

(** *** Facts about the background writer *)












(** A failed batch does not stop the writer: with 150 queued items and a
    first transaction that fails, the second pass commits items 101..150. *)
Example writer_continues_after_failure :
  let db := _background_writer (after_usage_writes 150) [Some 0%nat; None] in
  map snd (journal db) = [false; true]
  /\ map (fun e => length (fst e)) (journal db) = [100; 50]%nat
  /\ length (model_usage (tables db)) = 50%nat
  /\ qsize (_write_queue db) = 0%nat.
Proof.
  vm_compute. repeat split; reflexivity.
Qed.

(** *** Facts about the aggregate queries *)













(** *** Further facts about the writer and the queries *)



Lemma execute_batch_write_stop (db : AnalyticsDB) (writes : list QueueItem)
    (fault : option nat) :
  _stop_event (_execute_batch_write db writes fault) = _stop_event db.
Proof.
  unfold _execute_batch_write. destruct (run_statements _ _ _); reflexivity.
Qed.













Lemma round2_zero : (round2 0 == 0)%Q.
Proof. reflexivity. Qed.


End Db.

(** ** services/analytics.py *)

Module Analytics.

(** [AnalyticsService.log_inference_run], acting on the sink it owns. *)
Definition log_inference_run (db : Db.AnalyticsDB) (task model_path : string)
    (timing : gmap string Q) (success : bool) (error_message : option string)
    (image_size : Z) : Db.AnalyticsDB :=
  let db1 := Db.log_inference db task model_path timing success error_message image_size in
  if success then Db.log_model_usage db1 task model_path else db1.

Definition is_inference_run (item : Db.QueueItem) : bool :=
  match item with
  | Db.InferenceRuns _ => true
  | Db.ModelUsage _ => false
  end.

Definition queued (db : Db.AnalyticsDB) : list Db.QueueItem :=
  Db.items (Db._write_queue db).

(** A fresh sink after [n] successful runs and no writer activity. *)
Definition after_successful_runs (n : nat) : Db.AnalyticsDB :=
  Nat.iter n (fun db => log_inference_run db "detect" "models/weights/yolo11n.pt" ∅ true None 0)
    Db.AnalyticsDB_new.

Lemma log_inference_queue (db : Db.AnalyticsDB) (task model_path : string)
    (timing : gmap string Q) (success : bool) (error_message : option string)
    (image_size : Z) :
  Db.maxsize (Db._write_queue db) = 0%nat ->
  Db._write_queue (Db.log_inference db task model_path timing success error_message image_size)
  = {| Db.maxsize := 0;
       Db.items :=
         queued db ++
         (if (length (queued db) <=? 1000)%nat
          then [Db.inference_write task model_path timing success error_message image_size]
          else []) |}.
Proof.
  intros Hm. unfold Db.log_inference, Db.qsize, queued.
  destruct (Nat.ltb_spec 1000 (length (Db.items (Db._write_queue db)))) as [Hfull|Hroom].
  - destruct (Nat.leb_spec (length (Db.items (Db._write_queue db))) 1000) as [?|_]; [lia|].
    simpl. rewrite app_nil_r. destruct (Db._write_queue db); simpl in *. congruence.
  - destruct (Nat.leb_spec (length (Db.items (Db._write_queue db))) 1000) as [_|?]; [|lia].
    apply Db.try_put_unbounded. exact Hm.
Qed.

(** Successful runs alone overfill the queue while the writer is busy: 501
    of them leave 1002 items, and every further one adds its model-usage
    write. *)
Example successful_runs_overfill_queue :
  length (queued (after_successful_runs 501)) = 1002%nat
  /\ length (queued (after_successful_runs 600)) = 1101%nat.
Proof.
  split; vm_compute; reflexivity.
Qed.

(** C10 (as stated, refuted).  On a sink that already holds 1001 queued
    items, a successful run enqueues its model-usage write only: no
    inference-run write reaches the queue. *)
Lemma run_write_dropped_when_queue_full :
  ~ (exists d,
        In (Db.InferenceRuns d)
           (queued (log_inference_run (Db.after_usage_writes 1001)
                      "detect" "models/weights/yolo11n.pt" ∅ true None 2048))).
Proof.
  intros (d & Hin).
  assert (Hnone :
    existsb is_inference_run
      (queued (log_inference_run (Db.after_usage_writes 1001)
                 "detect" "models/weights/yolo11n.pt" ∅ true None 2048)) = false)
    by (vm_compute; reflexivity).
  assert (Hsome :
    existsb is_inference_run
      (queued (log_inference_run (Db.after_usage_writes 1001)
                 "detect" "models/weights/yolo11n.pt" ∅ true None 2048)) = true).
  { apply existsb_exists. exists (Db.InferenceRuns d). split; [exact Hin|reflexivity]. }
  congruence.
Qed.

(** C10 (amended).  [log_inference_run] always hands the run to
    [log_inference], whose write is enqueued unless more than 1000 items are
    already queued; after it, a model-usage write is enqueued if and only if
    the run succeeded.  Nothing else is added and nothing queued is lost. *)
Theorem log_inference_run_queue (db : Db.AnalyticsDB) (task model_path : string)
    (timing : gmap string Q) (success : bool) (error_message : option string)
    (image_size : Z) :
  Db.maxsize (Db._write_queue db) = 0%nat ->
  queued (log_inference_run db task model_path timing success error_message image_size)
  = queued db
    ++ (if (length (queued db) <=? 1000)%nat
        then [Db.inference_write task model_path timing success error_message image_size]
        else [])
    ++ (if success then [Db.usage_write task model_path] else []).
Proof.
  intros Hm. unfold log_inference_run.
  pose proof (log_inference_queue db task model_path timing success error_message
                image_size Hm) as Hq.
  destruct success.
  - unfold queued at 1, Db.log_model_usage.
    rewrite Db.try_put_unbounded by (rewrite Hq; reflexivity).
    rewrite Hq. cbn [Db.items]. rewrite <- app_assoc. reflexivity.
  - unfold queued at 1. rewrite Hq. cbn [Db.items]. rewrite app_nil_r. reflexivity.
Qed.

Lemma log_inference_run_queue_witness :
  queued (log_inference_run Db.AnalyticsDB_new "classify" "models/weights/yolo11n-cls.pt"
            ∅ false (Some "Failed to decode image") 12)
  = queued Db.AnalyticsDB_new
    ++ (if (length (queued Db.AnalyticsDB_new) <=? 1000)%nat
        then [Db.inference_write "classify" "models/weights/yolo11n-cls.pt" ∅ false
                (Some "Failed to decode image") 12]
        else [])
    ++ (if false then [Db.usage_write "classify" "models/weights/yolo11n-cls.pt"] else []).
Proof.
  apply (log_inference_run_queue Db.AnalyticsDB_new "classify"
           "models/weights/yolo11n-cls.pt" ∅ false (Some "Failed to decode image") 12).
  reflexivity.
Defined.

(** *** Performance metrics *)

(** The grades ['excellent'], ['good'] and ['poor']. *)
Inductive Grade := Excellent | Good | Poor.

Definition rank (g : Grade) : nat :=
  match g with
  | Poor => 0
  | Good => 1
  | Excellent => 2
  end.

(** [x < y] on floats. *)
Definition Qltb (x y : Q) : bool :=
  match (x ?= y)%Q with
  | Lt => true
  | _ => false
  end.

Definition fast_fps_threshold : Q := 30.
Definition slow_fps_threshold : Q := 10.
Definition fast_inference_threshold : Q := 100.
Definition slow_inference_threshold : Q := 500.

(** The grading of [get_performance_metrics]. *)
Definition performance_grade (avg_fps avg_inference_time : Q) : Grade :=
  if Qltb avg_fps slow_fps_threshold || Qltb slow_inference_threshold avg_inference_time
  then Poor
  else if Qltb avg_fps fast_fps_threshold || Qltb fast_inference_threshold avg_inference_time
       then Good
       else Excellent.

Record PerformanceMetrics := {
  grade : Grade;
  metrics_avg_fps : Q;
  metrics_avg_inference_time_ms : Q
}.

Definition get_performance_metrics (conn : option Db.Tables) : PerformanceMetrics :=
  let stats := Db.get_stats conn in
  {| grade := performance_grade (Db.avg_fps stats) (Db.avg_inference_time_ms stats);
     metrics_avg_fps := Db.avg_fps stats;
     metrics_avg_inference_time_ms := Db.avg_inference_time_ms stats |}.

Lemma Qltb_lt (x y : Q) : Qltb x y = true <-> (x < y)%Q.
Proof.
  unfold Qltb. rewrite Qlt_alt. destruct (x ?= y)%Q; split; congruence.
Qed.

Lemma Qltb_ge (x y : Q) : Qltb x y = false <-> (y <= x)%Q.
Proof.
  split.
  - intros H. apply Qnot_lt_le. intros Hlt. apply Qltb_lt in Hlt. congruence.
  - intros H. destruct (Qltb x y) eqn:E; [|reflexivity].
    apply Qltb_lt in E. exfalso. exact (Qlt_not_le _ _ E H).
Qed.

Ltac grade_cases :=
  unfold performance_grade, slow_fps_threshold, slow_inference_threshold,
    fast_fps_threshold, fast_inference_threshold;
  match goal with
  | |- context [Qltb ?f 10] =>
      match goal with
      | |- context [Qltb 500 ?t] =>
          destruct (Qltb f 10) eqn:H1; destruct (Qltb 500 t) eqn:H2;
          destruct (Qltb f 30) eqn:H3; destruct (Qltb 100 t) eqn:H4
      end
  end;
  simpl;
  repeat match goal with
         | H : Qltb _ _ = true |- _ => apply Qltb_lt in H
         | H : Qltb _ _ = false |- _ => apply Qltb_ge in H
         end;
  unfold Qlt, Qle in *; simpl in *;
  (split; intros Hc; try discriminate Hc; try reflexivity; try lia).

Lemma grade_poor_iff (avg_fps avg_time : Q) :
  performance_grade avg_fps avg_time = Poor <-> (avg_fps < 10)%Q \/ (500 < avg_time)%Q.
Proof. grade_cases. Qed.

Lemma grade_excellent_iff (avg_fps avg_time : Q) :
  performance_grade avg_fps avg_time = Excellent
  <-> (30 <= avg_fps)%Q /\ (avg_time <= 100)%Q.
Proof. grade_cases. Qed.

(** X6.  The grade is ['poor'] exactly when the average fps is below 10 or
    the average inference time above 500 ms, and ['excellent'] exactly when
    the average fps is at least 30 and the average inference time at most
    100 ms. *)
Theorem performance_grade_cases (avg_fps avg_time : Q) :
  (performance_grade avg_fps avg_time = Poor
   <-> (avg_fps < 10)%Q \/ (500 < avg_time)%Q)
  /\ (performance_grade avg_fps avg_time = Excellent
      <-> (30 <= avg_fps)%Q /\ (avg_time <= 100)%Q).
Proof.
  split; [apply grade_poor_iff|apply grade_excellent_iff].
Qed.

(** X7.  A higher average fps together with a lower average inference time
    never gives a worse grade. *)
Theorem performance_grade_monotone (fps fps' time time' : Q) :
  (fps <= fps')%Q -> (time' <= time)%Q ->
  (rank (performance_grade fps time) <= rank (performance_grade fps' time'))%nat.
Proof.
  intros Hfps Htime.
  destruct (performance_grade fps time) eqn:Hg.
  - apply grade_excellent_iff in Hg as [H30 H100].
    assert (Hg' : performance_grade fps' time' = Excellent).
    { apply grade_excellent_iff. split.
      - eapply Qle_trans; eassumption.
      - eapply Qle_trans; eassumption. }
    rewrite Hg'. simpl. lia.
  - destruct (performance_grade fps' time') eqn:Hg'; simpl; try lia.
    exfalso. apply grade_poor_iff in Hg' as [Hslow|Hlong].
    + assert (Hp : performance_grade fps time = Poor).
      { apply grade_poor_iff. left. eapply Qle_lt_trans; eassumption. }
      congruence.
    + assert (Hp : performance_grade fps time = Poor).
      { apply grade_poor_iff. right. eapply Qlt_le_trans; eassumption. }
      congruence.
  - simpl. lia.
Qed.

Lemma performance_grade_monotone_witness :
  (rank (performance_grade 12 450) <= rank (performance_grade 45 80))%nat.
Proof.
  apply (performance_grade_monotone 12 45 450 80); discriminate.
Defined.

Lemma filter_none {A : Type} (f : A -> bool) (l : list A) :
  Forall (fun x => f x = false) l -> List.filter f l = [].
Proof.
  induction 1 as [|x l Hx _ IH]; simpl; [reflexivity|].
  rewrite Hx. exact IH.
Qed.

Lemma no_fps_grade_poor (t : Db.Tables) :
  Forall (fun r => Db.is_success r && Qpositive (Db.fps_of r) = false)
    (Db.inference_runs t) ->
  (metrics_avg_fps (get_performance_metrics (Some t)) == 0)%Q
  /\ grade (get_performance_metrics (Some t)) = Poor.
Proof.
  intros Hrows.
  assert (Hfps : Db.avg_fps (Db.get_stats (Some t)) = round2 0).
  { cbn [Db.get_stats Db.avg_fps]. rewrite (filter_none _ _ Hrows). reflexivity. }
  unfold get_performance_metrics. cbn [metrics_avg_fps grade]. rewrite Hfps.
  split; [reflexivity|]. apply grade_poor_iff. left. reflexivity.
Qed.

(** X8.  When no stored successful run has a positive fps -- in particular
    when nothing is stored, and also when the store cannot be read -- the
    reported average fps is 0 and the grade is ['poor'], whatever the
    inference times are. *)
Theorem grade_poor_without_fps (conn : option Db.Tables) :
  match conn with
  | Some t => Forall (fun r => Db.is_success r && Qpositive (Db.fps_of r) = false)
                (Db.inference_runs t)
  | None => True
  end ->
  (metrics_avg_fps (get_performance_metrics conn) == 0)%Q
  /\ grade (get_performance_metrics conn) = Poor.
Proof.
  destruct conn as [t|]; intros Hrows.
  - apply no_fps_grade_poor. exact Hrows.
  - split; [reflexivity|]. apply grade_poor_iff. left. reflexivity.
Qed.

Lemma grade_poor_without_fps_witness :
  (metrics_avg_fps
     (get_performance_metrics
        (Some {| Db.inference_runs := [Db.run_row 1 "detect" 0 20 true;
                                       Db.run_row 2 "pose" 0 35 true];
                 Db.model_usage := [] |})) == 0)%Q
  /\ grade
       (get_performance_metrics
          (Some {| Db.inference_runs := [Db.run_row 1 "detect" 0 20 true;
                                         Db.run_row 2 "pose" 0 35 true];
                   Db.model_usage := [] |})) = Poor.
Proof.
  apply (grade_poor_without_fps
           (Some {| Db.inference_runs := [Db.run_row 1 "detect" 0 20 true;
                                          Db.run_row 2 "pose" 0 35 true];
                    Db.model_usage := [] |})).
  repeat constructor.
Defined.

End Analytics.

(** ** core/model_registry.py *)

Module Registry.

(** A loaded [YOLO] object: which constructor call made it and from which
    weights. *)
Record YOLO := {
  handle_id : nat;
  weights : string
}.

(** What the registry did, in order: entries into [_load_model] and calls of
    the [YOLO] constructor with their outcome. *)
Inductive Event :=
| LoadModel (task : string)
| Construct (path : string) (ok : bool).

(** The world around the registry: the configured paths, the file system,
    and whether the [k]-th constructor call succeeds on a given path. *)
Record World := {
  MODEL_PATHS : gmap string string;
  path_exists : string -> bool;
  constructs : nat -> string -> bool
}.

Record ModelRegistry := {
  _models : gmap string YOLO;
  events : list Event
}.

Definition ModelRegistry_new : ModelRegistry := {| _models := ∅; events := [] |}.

Definition default_map : gmap string string :=
  list_to_map [("detect", "yolo11n.pt"); ("segment", "yolo11n-seg.pt");
               ("classify", "yolo11n-cls.pt"); ("pose", "yolo11n-pose.pt")].

(** [default_map.get(task, 'yolo11n.pt')] *)
Definition default_model (task : string) : string :=
  default "yolo11n.pt" (default_map !! task).

Definition is_construct (e : Event) : bool :=
  match e with
  | Construct _ _ => true
  | LoadModel _ => false
  end.

Definition is_load (task : string) (e : Event) : bool :=
  match e with
  | LoadModel t => bool_decide (t = task)
  | Construct _ _ => false
  end.

Definition constructions (r : ModelRegistry) : nat :=
  length (List.filter is_construct (events r)).

Definition load_count (task : string) (r : ModelRegistry) : nat :=
  length (List.filter (is_load task) (events r)).

Definition record (r : ModelRegistry) (e : Event) : ModelRegistry :=
  {| _models := _models r; events := events r ++ [e] |}.

(** [YOLO(path)]: the object, or [None] when the constructor raises. *)
Definition YOLO_new (w : World) (r : ModelRegistry) (path : string)
  : ModelRegistry * option YOLO :=
  let k := constructions r in
  let ok := constructs w k path in
  (record r (Construct path ok),
   if ok then Some {| handle_id := k; weights := path |} else None).

Definition install (r : ModelRegistry) (task : string) (model : YOLO) : ModelRegistry :=
  {| _models := <[task := model]> (_models r); events := events r |}.

(** The path [_load_model] tries first. *)
Definition model_path (w : World) (task : string) : string :=
  match MODEL_PATHS w !! task with
  | Some p => if negb (String.eqb p "") && path_exists w p then p else default_model task
  | None => default_model task
  end.

Definition _load_model (w : World) (r : ModelRegistry) (task : string) : ModelRegistry :=
  let r0 := record r (LoadModel task) in
  match YOLO_new w r0 (model_path w task) with
  | (r1, Some model) => install r1 task model
  | (r1, None) =>
      match YOLO_new w r1 (default_model task) with
      | (r2, Some model) => install r2 task model
      | (r2, None) => r2
      end
  end.

(** The body of [get_model], as one caller runs it while holding the lock. *)
Definition get_model (w : World) (r : ModelRegistry) (task : string)
  : ModelRegistry * option YOLO :=
  let r' := match _models r !! task with
            | Some _ => r
            | None => _load_model w r task
            end in
  (r', _models r' !! task).

(** *** Concurrent callers *)

(** Where a thread stands in [get_model]. *)
Inductive Pc :=
| Waiting                      (* at [with self._model_lock] *)
| Holding                      (* lock acquired, at [if task not in self._models] *)
| Loading                      (* at [self._load_model(task)] *)
| Returning                    (* at [return self._models.get(task)] *)
| Done (result : option YOLO).

Record System := {
  registry : ModelRegistry;
  _model_lock : option nat;
  threads : list Pc
}.

Definition start (r : ModelRegistry) (n : nat) : System :=
  {| registry := r; _model_lock := None; threads := replicate n Waiting |}.

Definition inside (pc : Pc) : bool :=
  match pc with
  | Holding | Loading | Returning => true
  | Waiting | Done _ => false
  end.

(** One step of thread [i]; [None] when the thread cannot move (it is
    blocked on the lock, has returned, or does not exist). *)
Definition step (w : World) (task : string) (i : nat) (s : System) : option System :=
  match threads s !! i with
  | Some Waiting =>
      match _model_lock s with
      | None =>
          Some {| registry := registry s; _model_lock := Some i;
                  threads := <[i := Holding]> (threads s) |}
      | Some _ => None
      end
  | Some Holding =>
      Some {| registry := registry s; _model_lock := _model_lock s;
              threads := <[i := match _models (registry s) !! task with
                                | Some _ => Returning
                                | None => Loading
                                end]> (threads s) |}
  | Some Loading =>
      Some {| registry := _load_model w (registry s) task; _model_lock := _model_lock s;
              threads := <[i := Returning]> (threads s) |}
  | Some Returning =>
      Some {| registry := registry s; _model_lock := None;
              threads := <[i := Done (_models (registry s) !! task)]> (threads s) |}
  | Some (Done _) | None => None
  end.

(** Run the threads in the order the scheduler picks them; picking a thread
    that cannot move leaves the system as it is. *)
Fixpoint run (w : World) (task : string) (schedule : list nat) (s : System) : System :=
  match schedule with
  | [] => s
  | i :: rest => run w task rest (default s (step w task i s))
  end.

Definition is_done (pc : Pc) : bool :=
  match pc with
  | Done _ => true
  | _ => false
  end.

Definition all_done (s : System) : bool := forallb is_done (threads s).

(** Example worlds: every constructor call fails; every call succeeds; only
    the third call succeeds. *)
Definition configured_paths : gmap string string :=
  list_to_map [("detect", "models/weights/yolo11n.pt");
               ("segment", "models/weights/yolo11n-seg.pt");
               ("classify", "models/weights/yolo11n-cls.pt");
               ("pose", "models/weights/yolo11n-pose.pt")].


Definition working_world : World :=
  {| MODEL_PATHS := configured_paths;
     path_exists := fun _ => true;
     constructs := fun _ _ => true |}.


(** *** Facts about loading *)

Lemma constructions_record (r : ModelRegistry) (e : Event) :
  constructions (record r e) = (constructions r + if is_construct e then 1 else 0)%nat.
Proof.
  unfold constructions, record. simpl. rewrite List.filter_app, length_app. simpl.
  destruct (is_construct e); reflexivity.
Qed.

Lemma load_count_record (task : string) (r : ModelRegistry) (e : Event) :
  load_count task (record r e) = (load_count task r + if is_load task e then 1 else 0)%nat.
Proof.
  unfold load_count, record. simpl. rewrite List.filter_app, length_app. simpl.
  destruct (is_load task e); reflexivity.
Qed.

Lemma load_count_install (task t : string) (r : ModelRegistry) (m : YOLO) :
  load_count task (install r t m) = load_count task r.
Proof. reflexivity. Qed.

(** Every run of [_load_model] is one more load of its task. *)
Lemma load_model_counts (w : World) (r : ModelRegistry) (task : string) :
  load_count task (_load_model w r task) = S (load_count task r).
Proof.
  unfold _load_model, YOLO_new.
  destruct (constructs w _ (model_path w task)).
  - rewrite load_count_install, !load_count_record. simpl.
    rewrite bool_decide_eq_true_2 by reflexivity. lia.
  - destruct (constructs w _ (default_model task)).
    + rewrite load_count_install, !load_count_record. simpl.
      rewrite bool_decide_eq_true_2 by reflexivity. lia.
    + rewrite !load_count_record. simpl.
      rewrite bool_decide_eq_true_2 by reflexivity. lia.
Qed.




(** *** Concurrent first-time callers *)

Section SingleLoad.

Variable w : World.
Variable task : string.
Variable r : ModelRegistry.
Variable h : YOLO.

Hypothesis task_absent : _models r !! task = None.
Hypothesis load_succeeds : _models (_load_model w r task) !! task = Some h.

(** Whoever is inside the [with] block holds the lock. *)
Definition lock_ok (s : System) : Prop :=
  forall j pc, threads s !! j = Some pc -> inside pc = true -> _model_lock s = Some j.






End SingleLoad.





(** *** Further facts about the registry *)

(** [get_model] called for each task of a list in turn. *)
Definition serve (w : World) (r : ModelRegistry) (tasks : list string) : ModelRegistry :=
  fold_left (fun reg task => fst (get_model w reg task)) tasks r.

(** [preload_models]; [warm model] tells whether the warm-up prediction of
    [model] went through.  The second component lists, per loaded task,
    whether it was warmed up. *)
Fixpoint preload_models (w : World) (warm : YOLO -> bool) (r : ModelRegistry)
    (tasks : list string) : ModelRegistry * list (string * bool) :=
  match tasks with
  | [] => (r, [])
  | task :: rest =>
      let '(r1, model) := get_model w r task in
      let entry := match model with
                   | Some m => [(task, warm m)]
                   | None => []
                   end in
      let '(r2, entries) := preload_models w warm r1 rest in
      (r2, entry ++ entries)
  end.


(** The shape of one run of [_load_model]. *)
Lemma load_model_shape (w : World) (r : ModelRegistry) (task : string) :
  let k := constructions r in
  let p := model_path w task in
  let d := default_model task in
  (constructs w k p = true
   /\ _load_model w r task
      = {| _models := <[task := {| handle_id := k; weights := p |}]> (_models r);
           events := events r ++ [LoadModel task; Construct p true] |})
  \/ (constructs w k p = false /\ constructs w (S k) d = true
      /\ _load_model w r task
         = {| _models := <[task := {| handle_id := S k; weights := d |}]> (_models r);
              events := events r ++ [LoadModel task; Construct p false; Construct d true] |})
  \/ (constructs w k p = false /\ constructs w (S k) d = false
      /\ _load_model w r task
         = {| _models := _models r;
              events := events r ++ [LoadModel task; Construct p false;
                                     Construct d false] |}).
Proof.
  cbv zeta. unfold _load_model, YOLO_new.
  rewrite !constructions_record. simpl is_construct.
  rewrite Nat.add_0_r, Nat.add_1_r.
  destruct (constructs w (constructions r) (model_path w task)) eqn:H1.
  - left. split; [reflexivity|].
    unfold install, record. simpl. rewrite <- !app_assoc. reflexivity.
  - right. destruct (constructs w (S (constructions r)) (default_model task)) eqn:H2.
    + left. split; [reflexivity|]. split; [reflexivity|].
      unfold install, record. simpl. rewrite <- !app_assoc. reflexivity.
    + right. split; [reflexivity|]. split; [reflexivity|].
      unfold record. simpl. rewrite <- !app_assoc. reflexivity.
Qed.

Lemma get_model_other (w : World) (r : ModelRegistry) (task other : string) (h : YOLO) :
  _models r !! task = Some h ->
  _models (fst (get_model w r other)) !! task = Some h
  /\ load_count task (fst (get_model w r other)) = load_count task r.
Proof.
  intros Hloaded. unfold get_model.
  destruct (_models r !! other) eqn:Hother; simpl; [split; [exact Hloaded|reflexivity]|].
  assert (Hne : other <> task) by congruence.
  destruct (load_model_shape w r other) as [(_ & ->)|[(_ & _ & ->)|(_ & _ & ->)]];
    unfold load_count; cbn [_models events];
    rewrite ?lookup_insert_ne by exact Hne;
    rewrite List.filter_app, length_app; cbn [List.filter is_load];
    rewrite (bool_decide_eq_false_2 _ Hne); simpl;
    (split; [exact Hloaded|lia]).
Qed.

(** X9.  A model that is loaded stays loaded: through any later sequence of
    [get_model] calls, for any tasks, the registry keeps the same object for
    the task and never loads the task again. *)
Theorem loaded_model_is_kept (w : World) (r : ModelRegistry) (task : string) (h : YOLO)
    (later : list string) :
  _models r !! task = Some h ->
  _models (serve w r later) !! task = Some h
  /\ load_count task (serve w r later) = load_count task r
  /\ snd (get_model w (serve w r later) task) = Some h.
Proof.
  revert r. induction later as [|t ts IH]; intros r Hloaded.
  - change (serve w r []) with r.
    split; [exact Hloaded|]. split; [reflexivity|].
    unfold get_model. rewrite Hloaded. simpl. exact Hloaded.
  - change (serve w r (t :: ts)) with (serve w (fst (get_model w r t)) ts).
    destruct (get_model_other w r task t h Hloaded) as [Hnext Hcount].
    destruct (IH _ Hnext) as (H1 & H2 & H3).
    split; [exact H1|]. split; [rewrite H2; exact Hcount|exact H3].
Qed.

Lemma loaded_model_is_kept_witness :
  let r := fst (get_model working_world ModelRegistry_new "pose") in
  let h := {| handle_id := 0; weights := "models/weights/yolo11n-pose.pt" |} in
  _models (serve working_world r ["detect"; "pose"; "classify"]) !! "pose" = Some h
  /\ load_count "pose" (serve working_world r ["detect"; "pose"; "classify"])
     = load_count "pose" r
  /\ snd (get_model working_world (serve working_world r ["detect"; "pose"; "classify"])
            "pose") = Some h.
Proof.
  intros r h.
  apply (loaded_model_is_kept working_world r "pose" h ["detect"; "pose"; "classify"]).
  reflexivity.
Defined.


(** X11.  The registry does not check the task name: for a name outside the
    four tasks that the configuration does not mention, [get_model] builds
    the detection weights ["yolo11n.pt"] and files the object under that
    name. *)
Theorem unknown_task_gets_detection_weights (w : World) (r : ModelRegistry)
    (task : string) :
  task <> "detect" -> task <> "segment" -> task <> "classify" -> task <> "pose" ->
  MODEL_PATHS w !! task = None ->
  _models r !! task = None ->
  constructs w (constructions r) "yolo11n.pt" = true ->
  let h := {| handle_id := constructions r; weights := "yolo11n.pt" |} in
  snd (get_model w r task) = Some h
  /\ _models (fst (get_model w r task)) !! task = Some h.
Proof.
  intros Hd Hs Hc Hp Hconf Habsent Hok h.
  assert (Hdef : default_model task = "yolo11n.pt").
  { unfold default_model, default_map. simpl.
    rewrite !lookup_insert_ne by congruence. rewrite lookup_empty. reflexivity. }
  assert (Hpath : model_path w task = "yolo11n.pt").
  { unfold model_path. rewrite Hconf. exact Hdef. }
  unfold get_model. rewrite Habsent. simpl.
  destruct (load_model_shape w r task) as [(_ & ->)|[(Hno & _)|(Hno & _)]];
    [|rewrite Hpath in Hno; congruence..].
  simpl. rewrite Hpath, lookup_insert_eq. split; reflexivity.
Qed.

Lemma unknown_task_gets_detection_weights_witness :
  snd (get_model working_world ModelRegistry_new "bogus")
  = Some {| handle_id := 0; weights := "yolo11n.pt" |}
  /\ _models (fst (get_model working_world ModelRegistry_new "bogus")) !! "bogus"
     = Some {| handle_id := 0; weights := "yolo11n.pt" |}.
Proof.
  apply (unknown_task_gets_detection_weights working_world ModelRegistry_new "bogus");
    try discriminate; reflexivity.
Defined.

Lemma serve_keeps (w : World) (r : ModelRegistry) (task : string) (h : YOLO)
    (later : list string) :
  _models r !! task = Some h -> _models (serve w r later) !! task = Some h.
Proof.
  revert r. induction later as [|t ts IH]; intros r Hloaded; [exact Hloaded|].
  change (serve w r (t :: ts)) with (serve w (fst (get_model w r t)) ts).
  apply IH. apply (get_model_other w r task t h Hloaded).
Qed.

Lemma get_model_constructions (w : World) (r : ModelRegistry) (task : string) :
  (constructions r <= constructions (fst (get_model w r task)) <= constructions r + 2)%nat.
Proof.
  unfold get_model. destruct (_models r !! task); simpl; [lia|].
  destruct (load_model_shape w r task) as [(_ & ->)|[(_ & _ & ->)|(_ & _ & ->)]];
    unfold constructions; simpl; rewrite List.filter_app, length_app; simpl; lia.
Qed.

Lemma preload_models_cons (w : World) (warm : YOLO -> bool) (r : ModelRegistry)
    (task : string) (rest : list string) :
  preload_models w warm r (task :: rest)
  = (fst (preload_models w warm (fst (get_model w r task)) rest),
     match snd (get_model w r task) with
     | Some m => [(task, warm m)]
     | None => []
     end ++ snd (preload_models w warm (fst (get_model w r task)) rest)).
Proof.
  cbn [preload_models]. destruct (get_model w r task) as [r1 model]. cbn [fst snd].
  destruct (preload_models w warm r1 rest). reflexivity.
Qed.

(** X12.  Preloading leaves the registry exactly as the same [get_model]
    calls would, whatever happens during warm-up; it makes at most two
    constructor calls per task; and every task it reports, warmed up or not,
    is among those asked for and still loaded when it ends. *)
Theorem preload_ignores_warmup (w : World) (warm : YOLO -> bool) (r : ModelRegistry)
    (tasks : list string) :
  fst (preload_models w warm r tasks) = serve w r tasks
  /\ (constructions (serve w r tasks) <= constructions r + 2 * length tasks)%nat
  /\ Forall (fun entry => In (fst entry) tasks
                          /\ is_Some (_models (serve w r tasks) !! fst entry))
       (snd (preload_models w warm r tasks)).
Proof.
  revert r. induction tasks as [|t ts IH]; intros r.
  - simpl. split; [reflexivity|]. split; [unfold serve; simpl; lia|constructor].
  - change (serve w r (t :: ts)) with (serve w (fst (get_model w r t)) ts).
    rewrite preload_models_cons. cbn [fst snd].
    pose proof (get_model_constructions w r t) as Hc.
    assert (Hm : snd (get_model w r t) = _models (fst (get_model w r t)) !! t)
      by reflexivity.
    destruct (IH (fst (get_model w r t))) as (Hreg & Hcount & Hentries).
    split; [exact Hreg|].
    split; [simpl length; lia|].
    apply Forall_app. split.
    + destruct (snd (get_model w r t)) as [m|]; [|constructor].
      constructor; [|constructor]. simpl. split; [left; reflexivity|].
      exists m. apply serve_keeps. symmetry. exact Hm.
    + eapply List.Forall_impl; [|exact Hentries].
      intros entry [Hin Hloaded]. split; [right; exact Hin|exact Hloaded].
Qed.

(** *** Further facts about concurrent callers *)

(** The lock is held only by a thread inside the locked block. *)
Definition holder_inside (s : System) : Prop :=
  forall i, _model_lock s = Some i ->
            exists pc, threads s !! i = Some pc /\ inside pc = true.

(** Threads that are past the point where they may have loaded. *)
Definition past_load (pc : Pc) : bool :=
  match pc with
  | Returning | Done _ => true
  | Waiting | Holding | Loading => false
  end.

Definition locking (r : ModelRegistry) (task : string) (n : nat) (s : System) : Prop :=
  lock_ok s /\ holder_inside s /\ length (threads s) = n
  /\ (load_count task (registry s)
      <= load_count task r + length (List.filter past_load (threads s)))%nat.

Lemma filter_insert_length {A : Type} (f : A -> bool) (l : list A) (i : nat) (old x : A) :
  l !! i = Some old ->
  (length (List.filter f (<[i := x]> l)) + (if f old then 1 else 0)
   = length (List.filter f l) + (if f x then 1 else 0))%nat.
Proof.
  revert i. induction l as [|a l IH]; intros i Hi; [discriminate|].
  destruct i as [|i]; simpl in *.
  - injection Hi as ->. destruct (f old), (f x); simpl; lia.
  - specialize (IH i Hi). destruct (f a); simpl; lia.
Qed.

Lemma locking_start (r : ModelRegistry) (task : string) (n : nat) :
  locking r task n (start r n).
Proof.
  split; [|split; [|split]].
  - intros j pc Hj Hin. apply lookup_replicate in Hj as [-> _]. discriminate Hin.
  - intros i Hi. discriminate Hi.
  - apply length_replicate.
  - simpl. lia.
Qed.

Lemma locking_step (w : World) (r : ModelRegistry) (task : string) (n i : nat)
    (s s' : System) :
  locking r task n s -> step w task i s = Some s' -> locking r task n s'.
Proof.
  intros (Hlock & Hholder & Hlen & Hloads) Hstep. unfold step in Hstep.
  destruct (threads s !! i) as [pci|] eqn:Hi; [|discriminate].
  assert (Hlt : (i < length (threads s))%nat) by (eapply lookup_lt_Some; eassumption).
  destruct pci as [| | | |res].
  - destruct (_model_lock s) eqn:Hfree; [discriminate|].
    injection Hstep as <-. unfold locking, lock_ok, holder_inside. simpl.
    pose proof (filter_insert_length past_load _ i Waiting Holding Hi) as Hcount.
    simpl in Hcount.
    split; [|split; [|split]].
    + intros j pc Hj Hin.
      apply list_lookup_insert_Some in Hj as [(-> & _ & _)|(Hne & Hj)]; [reflexivity|].
      specialize (Hlock j pc Hj Hin). congruence.
    + intros j [= <-]. exists Holding. split; [|reflexivity].
      apply list_lookup_insert_eq. exact Hlt.
    + rewrite length_insert. exact Hlen.
    + lia.
  - injection Hstep as <-. unfold locking, lock_ok, holder_inside. simpl.
    pose proof (Hlock i Holding Hi eq_refl) as Hmine.
    split; [|split; [|split]].
    + intros j pc Hj Hin.
      apply list_lookup_insert_Some in Hj as [(-> & _ & _)|(Hne & Hj)]; eauto.
    + intros j Hj. assert (j = i) as -> by congruence.
      eexists. split; [apply list_lookup_insert_eq; exact Hlt|].
      destruct (_models (registry s) !! task); reflexivity.
    + rewrite length_insert. exact Hlen.
    + destruct (_models (registry s) !! task).
      * pose proof (filter_insert_length past_load _ i Holding Returning Hi) as Hcount.
        simpl in Hcount. lia.
      * pose proof (filter_insert_length past_load _ i Holding Loading Hi) as Hcount.
        simpl in Hcount. lia.
  - injection Hstep as <-. unfold locking, lock_ok, holder_inside. simpl.
    pose proof (Hlock i Loading Hi eq_refl) as Hmine.
    pose proof (filter_insert_length past_load _ i Loading Returning Hi) as Hcount.
    simpl in Hcount.
    split; [|split; [|split]].
    + intros j pc Hj Hin.
      apply list_lookup_insert_Some in Hj as [(-> & _ & _)|(Hne & Hj)]; eauto.
    + intros j Hj. assert (j = i) as -> by congruence.
      exists Returning. split; [apply list_lookup_insert_eq; exact Hlt|reflexivity].
    + rewrite length_insert. exact Hlen.
    + rewrite load_model_counts. lia.
  - injection Hstep as <-. unfold locking, lock_ok, holder_inside. simpl.
    pose proof (Hlock i Returning Hi eq_refl) as Hmine.
    pose proof (filter_insert_length past_load _ i Returning
                  (Done (_models (registry s) !! task)) Hi) as Hcount.
    simpl in Hcount.
    split; [|split; [|split]].
    + intros j pc Hj Hin.
      apply list_lookup_insert_Some in Hj as [(-> & <- & _)|(Hne & Hj)]; [discriminate|].
      pose proof (Hlock j pc Hj Hin). congruence.
    + intros j Hj. discriminate Hj.
    + rewrite length_insert. exact Hlen.
    + lia.
  - discriminate.
Qed.

Lemma locking_run (w : World) (r : ModelRegistry) (task : string) (n : nat)
    (schedule : list nat) (s : System) :
  locking r task n s -> locking r task n (run w task schedule s).
Proof.
  revert s. induction schedule as [|i rest IH]; intros s Hinv; simpl; [exact Hinv|].
  apply IH. destruct (step w task i s) as [s'|] eqn:Hstep; simpl; [|exact Hinv].
  eapply locking_step; eassumption.
Qed.

Lemma forallb_false_lookup {A : Type} (f : A -> bool) (l : list A) :
  forallb f l = false -> exists i x, l !! i = Some x /\ f x = false.
Proof.
  induction l as [|a l IH]; simpl; [discriminate|].
  destruct (f a) eqn:Ha; simpl.
  - intros H. destruct (IH H) as (i & x & Hi & Hx). exists (S i), x. split; assumption.
  - intros _. exists 0%nat, a. split; [reflexivity|exact Ha].
Qed.

(** X13.  Whether or not loading works, and in every interleaving of any
    number of callers: no two callers are inside the locked block at once,
    and as long as some caller has not returned, some caller can take a step
    (the callers never deadlock on the registry lock). *)
Theorem callers_never_deadlock (w : World) (task : string) (r : ModelRegistry)
    (n : nat) (schedule : list nat) :
  let s := run w task schedule (start r n) in
  (forall i j pci pcj,
      threads s !! i = Some pci -> threads s !! j = Some pcj ->
      inside pci = true -> inside pcj = true -> i = j)
  /\ (all_done s = false -> exists i s', step w task i s = Some s').
Proof.
  intros s.
  destruct (locking_run w r task n schedule (start r n) (locking_start r task n))
    as (Hlock & Hholder & _ & _).
  fold s in Hlock, Hholder.
  split.
  - intros i j pci pcj Hi Hj Hini Hinj.
    pose proof (Hlock i pci Hi Hini). pose proof (Hlock j pcj Hj Hinj). congruence.
  - intros Hbusy. unfold all_done in Hbusy.
    destruct (_model_lock s) as [holder|] eqn:Hl.
    + destruct (Hholder holder Hl) as (pc & Hpc & Hin).
      exists holder. unfold step. rewrite Hpc.
      destruct pc; try discriminate Hin; eexists; reflexivity.
    + apply forallb_false_lookup in Hbusy as (i & pc & Hpc & Hnot).
      exists i. unfold step. rewrite Hpc.
      destruct pc as [| | | |res]; try discriminate Hnot;
        try (pose proof (Hlock i _ Hpc eq_refl); congruence).
      rewrite Hl. eexists. reflexivity.
Qed.

(** X14.  Each caller loads at most once: whatever the interleaving and
    whether or not loading works, [n] callers of [get_model] for one task
    cause at most [n] runs of [_load_model] for it. *)
Theorem loads_bounded_by_callers (w : World) (task : string) (r : ModelRegistry)
    (n : nat) (schedule : list nat) :
  (load_count task (registry (run w task schedule (start r n)))
   <= load_count task r + n)%nat.
Proof.
  destruct (locking_run w r task n schedule (start r n) (locking_start r task n))
    as (_ & _ & Hlen & Hloads).
  pose proof (List.filter_length_le past_load
                (threads (run w task schedule (start r n)))) as Hle.
  lia.
Qed.

End Registry.

(** ** core/inference.py *)

Module Inference.

(** *** Images *)

Record Colour := {
  red : Z;
  green : Z;
  blue : Z
}.

(** The content of a decoded colour image: rows of pixels. *)
Definition Picture : Type := list (list Colour).

(** A numpy array of shape (H, W, C). *)
Definition ndarray : Type := list (list (list Z)).

(** A PIL image: either of mode ['RGB'], or of some other mode with its raw
    bands. *)
Inductive PilImage :=
| RgbImage (picture : Picture)
| OtherImage (mode : string) (bands : ndarray).

(** The channel layouts of the two libraries. *)
Definition rgb_array (p : Picture) : ndarray :=
  map (map (fun c => [red c; green c; blue c])) p.

Definition bgr_array (p : Picture) : ndarray :=
  map (map (fun c => [blue c; green c; red c])) p.

(** [cv2.cvtColor(image, cv2.COLOR_BGR2RGB)] *)
Definition cvtColor_BGR2RGB (a : ndarray) : ndarray :=
  map (map (fun px => match px with
                      | [b; g; r] => [r; g; b]
                      | _ => px
                      end)) a.

(** *** Model output *)

Record Boxes := {
  xyxy : list (list Q);
  conf : list Q;
  cls : list Q
}.

Record Result := {
  boxes : option Boxes;
  masks : option (list (list (list Q)));
  keypoints : option (list (list (list Q)));
  probs : option (list Q);
  names : option (gmap nat string)
}.

Record Prediction := {
  class_id : nat;
  confidence : Q;
  class_name : string
}.

(** The dictionary built by [_process_results]; absent keys are [None]. *)
Record Output := {
  out_classes : list Q;
  out_confidences : list Q;
  out_boxes : option (list (list Q));
  out_class_names : option (list string);
  out_masks : option (list (list (list Q)));
  out_keypoints : option (list (list (list Q)));
  out_predictions : option (list Prediction)
}.

Record Timing := {
  decode_ms : Q;
  inference_ms : Q;
  process_ms : Q;
  total_ms : Q
}.

Inductive InferenceResult :=
| Succeeded (predictions : Output) (timing : Timing) (fps : Q) (task : string)
| Failed (error : string) (task : string).

(** *** The libraries and the runtime around the pipeline *)

(** [Image_open] and [imdecode] answer [None] when the library cannot parse
    the bytes (it raises, or returns no image); [convert_RGB] is
    [image.convert('RGB')] on an image of another mode; [predict] is the
    forward pass, with its error text when it raises; [clock k] is the [k]-th
    reading of [time.time()] within one call. *)
Record Runtime := {
  Image_open : list Byte.byte -> option PilImage;
  convert_RGB : string -> ndarray -> option Picture;
  imdecode : list Byte.byte -> option Picture;
  predict : Registry.YOLO -> ndarray -> Q -> Q -> string -> list Result + string;
  device : string;
  clock : nat -> Q
}.

(** What the pipeline asked of its collaborators, in order. *)
Inductive Stage :=
| Decode
| GetModel (task : string)
| Predict (model : Registry.YOLO) (image : ndarray) (imgsz conf : Q) (device : string)
| Process.

(** *** Decode *)

(** The first attempt of [_decode_image]: PIL. *)
Definition decode_pil (rt : Runtime) (image_bytes : list Byte.byte) : option ndarray :=
  match Image_open rt image_bytes with
  | Some (RgbImage p) => Some (rgb_array p)
  | Some (OtherImage mode bands) => rgb_array <$> convert_RGB rt mode bands
  | None => None
  end.

(** The second attempt: OpenCV, which decodes to BGR. *)
Definition decode_cv2 (rt : Runtime) (image_bytes : list Byte.byte) : option ndarray :=
  match imdecode rt image_bytes with
  | Some p => Some (cvtColor_BGR2RGB (bgr_array p))
  | None => None
  end.

Definition _decode_image (rt : Runtime) (image_bytes : list Byte.byte) : ndarray + string :=
  match decode_pil rt image_bytes with
  | Some a => inl a
  | None =>
      match decode_cv2 rt image_bytes with
      | Some a => inl a
      | None => inr "Failed to decode image"
      end
  end.

(** *** Postprocess *)

(** [int(x)] of a float: truncation towards zero. *)
Definition int (q : Q) : Z := Z.quot (Qnum q) (Z.pos (Qden q)).

(** [result.names[int(cls_id)]]; the right injection is the [KeyError]. *)
Definition name_of (table : gmap nat string) (cls_id : Q) : string + string :=
  let k := int cls_id in
  if (k <? 0)%Z then inr (pretty k)
  else match table !! Z.to_nat k with
       | Some n => inl n
       | None => inr (pretty k)
       end.

Fixpoint names_of (table : gmap nat string) (cls_ids : list Q) : list string + string :=
  match cls_ids with
  | [] => inl []
  | c :: rest =>
      match name_of table c with
      | inr e => inr e
      | inl n =>
          match names_of table rest with
          | inr e => inr e
          | inl ns => inl (n :: ns)
          end
      end
  end.

Definition prob (probs : list Q) (i : nat) : Q := nth i probs 0%Q.

(** [np.argsort(probs)]: indices in ascending order of probability, equal
    probabilities staying in index order (an insertion sort from the
    left). *)
Fixpoint insert_index (probs : list Q) (i : nat) (sorted : list nat) : list nat :=
  match sorted with
  | [] => [i]
  | j :: rest =>
      match (prob probs i ?= prob probs j)%Q with
      | Lt => i :: j :: rest
      | _ => j :: insert_index probs i rest
      end
  end.

Definition argsort (probs : list Q) : list nat :=
  fold_left (fun sorted i => insert_index probs i sorted) (seq 0 (length probs)) [].

(** [a[-5:]] *)
Definition last5 {A : Type} (a : list A) : list A := skipn (length a - 5) a.

(** [np.argsort(probs)[-5:][::-1]] *)
Definition top5_idx (probs : list Q) : list nat := rev (last5 (argsort probs)).

Definition prediction_of (probs : list Q) (table : gmap nat string) (idx : nat) : Prediction :=
  {| class_id := idx;
     confidence := prob probs idx;
     class_name := default (String.append "class_" (pretty idx)) (table !! idx) |}.

Definition member (task : string) (tasks : list string) : bool :=
  existsb (String.eqb task) tasks.

Definition empty_output : Output :=
  {| out_classes := []; out_confidences := []; out_boxes := Some []; out_class_names := None;
     out_masks := Some []; out_keypoints := None; out_predictions := None |}.

(** [_process_results]; the right injection is the text of the exception a
    lookup raised. *)
Definition _process_results (results : list Result) (task : string) : Output + string :=
  match results with
  | [] => inl empty_output
  | result :: _ =>
      let detection :=
        if member task ["detect"; "segment"; "pose"]
        then match boxes result with
             | Some b =>
                 match names result with
                 | Some table =>
                     match names_of table (cls b) with
                     | inl ns => inl (Some b, Some ns)
                     | inr e => inr e
                     end
                 | None => inl (Some b, None)
                 end
             | None => inl (None, None)
             end
        else inl (None, None) in
      let classification :=
        if String.eqb task "classify"
        then match probs result with
             | Some ps =>
                 match names result with
                 | Some table => inl (Some (map (prediction_of ps table) (top5_idx ps)))
                 | None => inr "'Results' object has no attribute 'names'"
                 end
             | None => inl None
             end
        else inl None in
      match detection with
      | inr e => inr e
      | inl (b, ns) =>
          match classification with
          | inr e => inr e
          | inl preds =>
              inl {| out_classes := from_option cls [] b;
                     out_confidences := from_option conf [] b;
                     out_boxes := xyxy <$> b;
                     out_class_names := ns;
                     out_masks := if String.eqb task "segment" then masks result else None;
                     out_keypoints := if String.eqb task "pose" then keypoints result else None;
                     out_predictions := preds |}
          end
      end
  end.

(** *** The pipeline *)

(** [kwargs.get(key, default)] *)
Definition kwargs_get (kwargs : gmap string Q) (key : string) (dflt : Q) : Q :=
  default dflt (kwargs !! key).

Definition ms (seconds : Q) : Q := round2 (seconds * 1000).

(** [run_inference]: the registry as the call leaves it, the stages that
    ran, and the result. *)
Definition run_inference (rt : Runtime) (w : Registry.World) (reg : Registry.ModelRegistry)
    (task : string) (image_bytes : list Byte.byte) (kwargs : gmap string Q)
  : Registry.ModelRegistry * list Stage * InferenceResult :=
  match _decode_image rt image_bytes with
  | inr e => (reg, [Decode], Failed e task)
  | inl image =>
      let decode_time := (clock rt 2 - clock rt 1)%Q in
      let '(reg', model) := Registry.get_model w reg task in
      match model with
      | None =>
          (reg', [Decode; GetModel task],
           Failed (String.append "No model available for task: " task) task)
      | Some m =>
          let imgsz := kwargs_get kwargs "imgsz" 640 in
          let conf := kwargs_get kwargs "conf" (1 # 4) in
          let called := [Decode; GetModel task; Predict m image imgsz conf (device rt)] in
          match predict rt m image imgsz conf (device rt) with
          | inr e => (reg', called, Failed e task)
          | inl results =>
              let infer_time := (clock rt 4 - clock rt 3)%Q in
              match _process_results results task with
              | inr e => (reg', called ++ [Process], Failed e task)
              | inl predictions =>
                  let process_time := (clock rt 6 - clock rt 5)%Q in
                  let total_time := (clock rt 7 - clock rt 0)%Q in
                  (reg', called ++ [Process],
                   Succeeded predictions
                     {| decode_ms := ms decode_time;
                        inference_ms := ms infer_time;
                        process_ms := ms process_time;
                        total_ms := ms total_time |}
                     (if Qpositive infer_time
                      then round2 (1000 / (infer_time * 1000))
                      else 0%Q)
                     task)
              end
          end
      end
  end.

(** *** The worker pool *)

(** A submitted call: the value its worker returns, the time left until the
    worker is through with it, and whether it was cancelled. *)
Record Future := {
  outcome : InferenceResult;
  remaining : nat;
  cancelled : bool
}.

Record InferenceEngine := {
  max_workers : nat;
  executor : list Future;
  now : nat
}.

(** [max_workers or max(2, min(8, os.cpu_count() or 2))] *)
Definition InferenceEngine_new (workers : option nat) (cpu_count : option nat)
  : InferenceEngine :=
  let chosen := match workers with
                | Some (S k) => S k
                | _ => Nat.max 2 (Nat.min 8 (match cpu_count with
                                             | Some (S c) => S c
                                             | _ => 2%nat
                                             end))
                end in
  {| max_workers := chosen; executor := []; now := 0 |}.

Definition advance (dt : nat) (f : Future) : Future :=
  {| outcome := outcome f; remaining := remaining f - dt; cancelled := cancelled f |}.

(** Time passes for every call in flight. *)
Definition elapse (dt : nat) (e : InferenceEngine) : InferenceEngine :=
  {| max_workers := max_workers e;
     executor := map (advance dt) (executor e);
     now := now e + dt |}.

(** [executor.submit(...)]: the new future is the last of the list. *)
Definition submit (e : InferenceEngine) (result : InferenceResult) (duration : nat)
  : InferenceEngine :=
  {| max_workers := max_workers e;
     executor := executor e ++ [{| outcome := result; remaining := duration;
                                   cancelled := false |}];
     now := now e |}.

(** [future.result(timeout=t)] on the future submitted last: its value once
    the worker is done, or [None] ([TimeoutError]) after [t]. *)
Definition future_result (e : InferenceEngine) (timeout : nat)
  : InferenceEngine * option InferenceResult :=
  match last (executor e) with
  | None => (e, None)
  | Some f =>
      if (remaining f <=? timeout)%nat
      then (elapse (remaining f) e, Some (outcome f))
      else (elapse timeout e, None)
  end.

(** [run_async]; [duration] is the time the pooled call takes from its
    submission to the return of its worker. *)
Definition run_async (rt : Runtime) (w : Registry.World) (duration : nat)
    (e : InferenceEngine) (reg : Registry.ModelRegistry)
    (task : string) (image_bytes : list Byte.byte) (timeout : option nat)
    (kwargs : gmap string Q)
  : InferenceEngine * Registry.ModelRegistry * InferenceResult :=
  let '(reg', _, result) := run_inference rt w reg task image_bytes kwargs in
  let e1 := submit e result duration in
  match future_result e1 (default 30%nat timeout) with
  | (e2, Some r) => (e2, reg', r)
  | (e2, None) => (e2, reg', Failed "Inference timeout" task)
  end.

(** *** An example runtime

    A toy PIL that reads a leading "P" as a 1x1 RGB image and a leading "G"
    as a 1x1 greyscale image; a toy OpenCV that reads a leading "J"; a model
    that answers the same three-way tie plus three smaller scores. *)
Definition toy_open (image_bytes : list Byte.byte) : option PilImage :=
  match image_bytes with
  | Byte.x50 :: _ => Some (RgbImage [[{| red := 1; green := 2; blue := 3 |}]])
  | Byte.x47 :: _ => Some (OtherImage "L" [[[7%Z]]])
  | _ => None
  end.

Definition toy_convert (mode : string) (bands : ndarray) : option Picture :=
  if String.eqb mode "L"
  then Some (map (map (fun px => let v := hd 0%Z px in
                                 {| red := v; green := v; blue := v |})) bands)
  else None.

Definition toy_imdecode (image_bytes : list Byte.byte) : option Picture :=
  match image_bytes with
  | Byte.x4a :: _ => Some [[{| red := 10; green := 20; blue := 30 |}]]
  | _ => None
  end.

Definition toy_result : Result :=
  {| boxes := None; masks := None; keypoints := None;
     probs := Some [1 # 10; 2 # 10; 2 # 10; 1 # 20; 2 # 10; 1 # 20; 1 # 5; 0]%Q;
     names := Some (list_to_map [(0, "tench"); (1, "goldfish"); (2, "shark")]%nat) |}.

Definition toy_runtime : Runtime :=
  {| Image_open := toy_open;
     convert_RGB := toy_convert;
     imdecode := toy_imdecode;
     predict := fun _ _ _ _ _ => inl [toy_result];
     device := "cpu";
     clock := fun k => (inject_Z (Z.of_nat k) / 100)%Q |}.






(** What PIL makes of the bytes, as colours. *)
Definition pil_reads (rt : Runtime) (image_bytes : list Byte.byte) : option Picture :=
  match Image_open rt image_bytes with
  | Some (RgbImage p) => Some p
  | Some (OtherImage mode bands) => convert_RGB rt mode bands
  | None => None
  end.

Definition three_channel (a : ndarray) : Prop :=
  Forall (Forall (fun px => length px = 3%nat)) a.

(** The options that reached the model. *)
Definition forwarded (stages : list Stage) : list (Q * Q) :=
  flat_map (fun st => match st with
                      | Predict _ _ imgsz conf _ => [(imgsz, conf)]
                      | _ => []
                      end) stages.

Definition stages_of (run : Registry.ModelRegistry * list Stage * InferenceResult)
  : list Stage := snd (fst run).

Definition result_of (run : Registry.ModelRegistry * list Stage * InferenceResult)
  : InferenceResult := snd run.

Definition not_an_image : list Byte.byte := String.list_byte_of_string "not an image".

Definition bad_options : gmap string Q := {[ "imgsz" := (-640)%Q; "conf" := 0%Q ]}.

(** *** Facts about decoding *)

Lemma cvtColor_bgr_array (p : Picture) : cvtColor_BGR2RGB (bgr_array p) = rgb_array p.
Proof.
  unfold cvtColor_BGR2RGB, bgr_array, rgb_array.
  rewrite map_map. apply map_ext. intros row.
  rewrite map_map. reflexivity.
Qed.

Lemma rgb_array_three_channel (p : Picture) : three_channel (rgb_array p).
Proof.
  unfold three_channel, rgb_array.
  apply List.Forall_forall. intros row Hrow.
  apply in_map_iff in Hrow as (cs & <- & _).
  apply List.Forall_forall. intros px Hpx.
  apply in_map_iff in Hpx as (c & <- & _). reflexivity.
Qed.

Lemma decode_pil_reads (rt : Runtime) (image_bytes : list Byte.byte) :
  decode_pil rt image_bytes = rgb_array <$> pil_reads rt image_bytes.
Proof.
  unfold decode_pil, pil_reads.
  destruct (Image_open rt image_bytes) as [[p|mode bands]|]; reflexivity.
Qed.

(** C6.  Decoding tries PIL and then OpenCV: whatever either of them parses
    is accepted, and every array the stage hands on has three channels in
    the order red, green, blue of the decoded colours.  When neither parses
    the bytes, [run_inference] answers a failure carrying the decode error
    for the task, having asked for no model and run no later stage. *)
Theorem decode_stage_spec (rt : Runtime) (w : Registry.World)
    (reg : Registry.ModelRegistry) (task : string) (image_bytes : list Byte.byte)
    (kwargs : gmap string Q) :
  (forall p, pil_reads rt image_bytes = Some p ->
             _decode_image rt image_bytes = inl (rgb_array p))
  /\ (forall p, pil_reads rt image_bytes = None -> imdecode rt image_bytes = Some p ->
                _decode_image rt image_bytes = inl (rgb_array p))
  /\ (forall a, _decode_image rt image_bytes = inl a ->
                three_channel a
                /\ exists p, a = rgb_array p
                             /\ (pil_reads rt image_bytes = Some p
                                 \/ imdecode rt image_bytes = Some p))
  /\ (pil_reads rt image_bytes = None -> imdecode rt image_bytes = None ->
      run_inference rt w reg task image_bytes kwargs
      = (reg, [Decode], Failed "Failed to decode image" task)).
Proof.
  unfold run_inference, _decode_image, decode_cv2.
  rewrite decode_pil_reads.
  destruct (pil_reads rt image_bytes) as [p|] eqn:Hpil; simpl.
  - split; [intros p0 [= <-]; reflexivity|].
    split; [discriminate|].
    split; [|discriminate].
    intros a [= <-]. split; [apply rgb_array_three_channel|].
    exists p. split; [reflexivity|left; reflexivity].
  - split; [discriminate|].
    destruct (imdecode rt image_bytes) as [p|] eqn:Hcv; simpl.
    + split; [intros p0 _ [= <-]; rewrite cvtColor_bgr_array; reflexivity|].
      split; [|discriminate].
      intros a [= <-]. rewrite cvtColor_bgr_array.
      split; [apply rgb_array_three_channel|].
      exists p. split; [reflexivity|right; reflexivity].
    + split; [discriminate|].
      split; [discriminate|].
      intros _ _. reflexivity.
Qed.

(** Bytes that are no image, the same picture offered to PIL in two modes,
    and a picture only OpenCV reads. *)
Example decode_scenarios :
  run_inference toy_runtime Registry.working_world Registry.ModelRegistry_new
    "detect" not_an_image ∅
  = (Registry.ModelRegistry_new, [Decode], Failed "Failed to decode image" "detect")
  /\ _decode_image toy_runtime (String.list_byte_of_string "PNG") = inl [[[1; 2; 3]]]%Z
  /\ _decode_image toy_runtime (String.list_byte_of_string "GIF") = inl [[[7; 7; 7]]]%Z
  /\ _decode_image toy_runtime (String.list_byte_of_string "JPEG") = inl [[[10; 20; 30]]]%Z.
Proof.
  repeat split; vm_compute; reflexivity.
Qed.

(** *** Facts about the options *)

(** C8 (as stated, refuted).  An image size of -640 and a confidence
    threshold of 0 reach the model as they are: the options forwarded to
    [predict] are not all positive. *)
Lemma bad_options_reach_model :
  ~ Forall (fun o => (0 < fst o)%Q /\ (0 < snd o)%Q)
      (forwarded (stages_of (run_inference toy_runtime Registry.working_world
                               Registry.ModelRegistry_new "detect"
                               (String.list_byte_of_string "PNG") bad_options))).
Proof.
  intros H.
  assert (Hfw : forwarded (stages_of (run_inference toy_runtime Registry.working_world
                                        Registry.ModelRegistry_new "detect"
                                        (String.list_byte_of_string "PNG") bad_options))
                = [((-640)%Q, 0%Q)]) by (vm_compute; reflexivity).
  rewrite Hfw in H. apply List.Forall_inv in H. destruct H as [H _].
  vm_compute in H. discriminate H.
Qed.

(** C8 (amended).  Once the image is decoded and a model is available, the
    model is called exactly once, with the image size and the confidence
    threshold of the request: 640 and 0.25 when the request leaves them out,
    and otherwise the value given, unchanged whatever it is. *)
Theorem options_forwarded (rt : Runtime) (w : Registry.World)
    (reg : Registry.ModelRegistry) (task : string) (image_bytes : list Byte.byte)
    (kwargs : gmap string Q) (image : ndarray) (m : Registry.YOLO) :
  _decode_image rt image_bytes = inl image ->
  snd (Registry.get_model w reg task) = Some m ->
  exists imgsz conf,
    forwarded (stages_of (run_inference rt w reg task image_bytes kwargs)) = [(imgsz, conf)]
    /\ In (Predict m image imgsz conf (device rt))
          (stages_of (run_inference rt w reg task image_bytes kwargs))
    /\ imgsz = match kwargs !! "imgsz" with Some v => v | None => 640%Q end
    /\ conf = match kwargs !! "conf" with Some v => v | None => (1 # 4)%Q end.
Proof.
  intros Hdecode Hmodel.
  exists (kwargs_get kwargs "imgsz" 640), (kwargs_get kwargs "conf" (1 # 4)).
  unfold run_inference. rewrite Hdecode.
  destruct (Registry.get_model w reg task) as [reg' model]. simpl in Hmodel. subst model.
  unfold kwargs_get.
  destruct (predict rt m image _ _ (device rt)) as [results|e].
  - destruct (_process_results results task) as [predictions|e];
      (split; [reflexivity|]); (split; [simpl; auto|]);
      split; destruct (kwargs !! _); reflexivity.
  - (split; [reflexivity|]); (split; [simpl; auto|]);
      split; destruct (kwargs !! _); reflexivity.
Qed.

Lemma options_forwarded_witness :
  exists imgsz conf,
    forwarded (stages_of (run_inference toy_runtime Registry.working_world
                            Registry.ModelRegistry_new "classify"
                            (String.list_byte_of_string "JPEG") ∅)) = [(imgsz, conf)]
    /\ In (Predict {| Registry.handle_id := 0;
                      Registry.weights := "models/weights/yolo11n-cls.pt" |}
             [[[10; 20; 30]]]%Z imgsz conf "cpu")
          (stages_of (run_inference toy_runtime Registry.working_world
                        Registry.ModelRegistry_new "classify"
                        (String.list_byte_of_string "JPEG") ∅))
    /\ imgsz = 640%Q
    /\ conf = (1 # 4)%Q.
Proof.
  exact (options_forwarded toy_runtime Registry.working_world Registry.ModelRegistry_new
           "classify" (String.list_byte_of_string "JPEG") ∅ [[[10; 20; 30]]]%Z
           {| Registry.handle_id := 0; Registry.weights := "models/weights/yolo11n-cls.pt" |}
           eq_refl eq_refl).
Defined.

(** *** Facts about the worker pool *)

Lemma last_map_snoc {A B : Type} (f : A -> B) (l : list A) (x : A) :
  last (map f (l ++ [x])) = Some (f x).
Proof.
  rewrite map_app. simpl. apply last_snoc.
Qed.



(** *** Facts about the classification output *)
















(** *** Further facts about the pipeline *)

Lemma ms_mono (x y : Q) : (x <= y)%Q -> (ms x <= ms y)%Q.
Proof.
  intros H. unfold ms. apply round2_mono.
  apply Qmult_le_compat_r; [exact H|discriminate].
Qed.

Lemma ms_nonneg (x : Q) : (0 <= x)%Q -> (0 <= ms x)%Q.
Proof.
  intros H. apply Qle_trans with (ms 0); [vm_compute; discriminate|].
  apply ms_mono. exact H.
Qed.

Lemma Qminus_nonneg (a b : Q) : (a <= b)%Q -> (0 <= b - a)%Q.
Proof.
  intros H. unfold Qminus. rewrite <- (Qplus_opp_r a).
  apply Qplus_le_compat; [exact H|apply Qle_refl].
Qed.

Lemma Qminus_le (a b c d : Q) : (c <= a)%Q -> (b <= d)%Q -> (b - a <= d - c)%Q.
Proof.
  intros Hca Hbd. unfold Qminus.
  apply Qplus_le_compat; [exact Hbd|apply Qopp_le_compat; exact Hca].
Qed.

(** X15.  With a clock that never runs backwards, a successful result
    carries stage times that are not negative, an inference time that does
    not exceed the total time, an fps that is not negative, and the task of
    the request. *)
Theorem timings_consistent (rt : Runtime) (w : Registry.World)
    (reg : Registry.ModelRegistry) (task : string) (image_bytes : list Byte.byte)
    (kwargs : gmap string Q) (predictions : Output) (timing : Timing) (fps : Q)
    (task' : string) :
  (forall j k, (j <= k)%nat -> (clock rt j <= clock rt k)%Q) ->
  result_of (run_inference rt w reg task image_bytes kwargs)
  = Succeeded predictions timing fps task' ->
  (0 <= decode_ms timing)%Q
  /\ (0 <= inference_ms timing)%Q
  /\ (0 <= process_ms timing)%Q
  /\ (inference_ms timing <= total_ms timing)%Q
  /\ (0 <= fps)%Q
  /\ task' = task.
Proof.
  intros Hclock Hrun. unfold result_of, run_inference in Hrun.
  destruct (_decode_image rt image_bytes) as [image|]; [|discriminate Hrun].
  destruct (Registry.get_model w reg task) as [reg' [m|]]; [|discriminate Hrun].
  destruct (predict rt m image _ _ (device rt)) as [results|]; [|discriminate Hrun].
  destruct (_process_results results task) as [preds|]; [|discriminate Hrun].
  cbn [snd] in Hrun. injection Hrun as _ <- <- <-.
  cbn [decode_ms inference_ms process_ms total_ms].
  split; [apply ms_nonneg, Qminus_nonneg, Hclock; lia|].
  split; [apply ms_nonneg, Qminus_nonneg, Hclock; lia|].
  split; [apply ms_nonneg, Qminus_nonneg, Hclock; lia|].
  split; [apply ms_mono, Qminus_le; apply Hclock; lia|].
  split; [|reflexivity].
  destruct (Qpositive (clock rt 4 - clock rt 3)) eqn:Hpos; [|apply Qle_refl].
  apply Qle_trans with (round2 0); [vm_compute; discriminate|].
  apply round2_mono.
  assert (Hlt : (0 < clock rt 4 - clock rt 3)%Q).
  { unfold Qpositive in Hpos. apply negb_true_iff in Hpos.
    apply Qnot_le_lt. intros Hle. apply Qle_bool_iff in Hle. congruence. }
  apply Qle_shift_div_l.
  - rewrite <- (Qmult_0_l 1000). apply Qmult_lt_compat_r; [reflexivity|exact Hlt].
  - rewrite Qmult_0_l. discriminate.
Qed.

Lemma timings_consistent_witness :
  exists predictions timing fps,
    result_of (run_inference toy_runtime Registry.working_world Registry.ModelRegistry_new
                 "classify" (String.list_byte_of_string "JPEG") ∅)
    = Succeeded predictions timing fps "classify"
    /\ (inference_ms timing <= total_ms timing)%Q
    /\ (0 <= fps)%Q.
Proof.
  eexists. eexists. eexists.
  assert (Hrun : result_of (run_inference toy_runtime Registry.working_world
                              Registry.ModelRegistry_new "classify"
                              (String.list_byte_of_string "JPEG") ∅)
                 = Succeeded _ _ _ "classify") by reflexivity.
  split; [exact Hrun|].
  assert (Hclock : forall j k, (j <= k)%nat ->
                               (clock toy_runtime j <= clock toy_runtime k)%Q).
  { intros j k Hjk. simpl. apply Qmult_le_compat_r; [|discriminate].
    rewrite <- Zle_Qle. lia. }
  pose proof (timings_consistent toy_runtime Registry.working_world
                Registry.ModelRegistry_new "classify" (String.list_byte_of_string "JPEG")
                ∅ _ _ _ "classify" Hclock Hrun) as (_ & _ & _ & Hle & Hfps & _).
  split; [exact Hle|exact Hfps].
Defined.





Lemma names_of_inl (table : gmap nat string) (cls_ids : list Q) (ns : list string) :
  names_of table cls_ids = inl ns <->
  Forall2 (fun c n => name_of table c = inl n) cls_ids ns.
Proof.
  revert ns. induction cls_ids as [|c cs IH]; intros ns; simpl.
  - split; [intros [= <-]; constructor|intros H; inversion H; reflexivity].
  - destruct (name_of table c) as [n|e] eqn:Hc.
    + destruct (names_of table cs) as [ns'|e] eqn:Hcs.
      * split.
        { intros [= <-]. constructor; [exact Hc|]. apply IH. reflexivity. }
        { intros H. inversion H as [|? n' ? ns'' Hn Hrest]; subst.
          apply IH in Hrest. congruence. }
      * split; [discriminate|].
        intros H. inversion H as [|? n' ? ns'' Hn Hrest]; subst.
        apply IH in Hrest. discriminate.
    + split; [discriminate|].
      intros H. inversion H as [|? n' ? ns'' Hn Hrest]; subst. congruence.
Qed.

Lemma names_of_inr (table : gmap nat string) (cls_ids : list Q) :
  Exists (fun c => exists e, name_of table c = inr e) cls_ids ->
  exists e, names_of table cls_ids = inr e.
Proof.
  induction 1 as [c cs (e & He)|c cs _ (e & IH)]; simpl.
  - rewrite He. exists e. reflexivity.
  - destruct (name_of table c) as [n|e']; [|exists e'; reflexivity].
    rewrite IH. exists e. reflexivity.
Qed.

(** X17.  For a detect result with boxes and a name table: when every class
    id has a name, the output carries the boxes, confidences and class ids of
    the model unchanged, one class name per box in the same order, and no
    classification list; when some class id has no name, postprocessing
    fails as a whole. *)
Theorem detect_class_names (result : Result) (others : list Result) (b : Boxes)
    (table : gmap nat string) :
  boxes result = Some b ->
  names result = Some table ->
  (Forall (fun c => exists n, name_of table c = inl n) (cls b) ->
   exists out ns,
     _process_results (result :: others) "detect" = inl out
     /\ out_class_names out = Some ns
     /\ Forall2 (fun c n => name_of table c = inl n) (cls b) ns
     /\ out_classes out = cls b
     /\ out_confidences out = conf b
     /\ out_boxes out = Some (xyxy b)
     /\ out_predictions out = None
     /\ out_masks out = None)
  /\ (Exists (fun c => exists e, name_of table c = inr e) (cls b) ->
      exists e, _process_results (result :: others) "detect" = inr e).
Proof.
  intros Hboxes Hnames. split.
  - intros Hall.
    assert (Hns : exists ns, names_of table (cls b) = inl ns).
    { clear Hboxes. induction Hall as [|c cs (n & Hn) _ (ns & IH)]; simpl.
      - exists []. reflexivity.
      - rewrite Hn, IH. eexists. reflexivity. }
    destruct Hns as (ns & Hns).
    eexists. exists ns.
    split; [unfold _process_results; simpl; rewrite Hboxes, Hnames, Hns; reflexivity|].
    simpl. repeat split. apply names_of_inl. exact Hns.
  - intros Hmissing. destruct (names_of_inr table (cls b) Hmissing) as (e & He).
    exists e. unfold _process_results. simpl. rewrite Hboxes, Hnames, He. reflexivity.
Qed.

Lemma detect_class_names_witness :
  exists e,
    _process_results
      [{| boxes := Some {| xyxy := [[0; 0; 10; 10]%Q]; conf := [9 # 10]%Q; cls := [5%Q] |};
          masks := None; keypoints := None; probs := None;
          names := Some (list_to_map [(0, "person")]%nat) |}] "detect" = inr e.
Proof.
  apply (detect_class_names
           {| boxes := Some {| xyxy := [[0; 0; 10; 10]%Q]; conf := [9 # 10]%Q;
                               cls := [5%Q] |};
              masks := None; keypoints := None; probs := None;
              names := Some (list_to_map [(0, "person")]%nat) |}
           [] {| xyxy := [[0; 0; 10; 10]%Q]; conf := [9 # 10]%Q; cls := [5%Q] |}
           (list_to_map [(0, "person")]%nat) eq_refl eq_refl).
  constructor. eexists. reflexivity.
Defined.



(** X19.  An engine built without a worker count (or with 0) has between 2
    and 8 workers: the CPU count when that lies in the range, 2 when it is
    unknown or smaller, 8 when it is larger.  A positive count that is given
    is taken as it is. *)
Theorem engine_worker_bounds (workers cpu_count : option nat) :
  let e := InferenceEngine_new workers cpu_count in
  match workers with
  | Some (S k) => max_workers e = S k
  | _ =>
      (2 <= max_workers e <= 8)%nat
      /\ max_workers e = match cpu_count with
                         | Some c => if (c <? 2)%nat then 2%nat
                                     else if (8 <? c)%nat then 8%nat else c
                         | None => 2%nat
                         end
  end
  /\ executor e = [].
Proof.
  cbv zeta. unfold InferenceEngine_new.
  split; [|reflexivity].
  destruct workers as [[|k]|]; [|reflexivity|];
    (destruct cpu_count as [[|c]|]; cbn [max_workers];
     [split; [lia|reflexivity]
     |split; [lia|];
      destruct (Nat.ltb_spec (S c) 2); destruct (Nat.ltb_spec 8 (S c)); lia
     |split; [lia|reflexivity]]).
Qed.

(** X20.  When the pooled call takes no longer than the timeout,
    [run_async] answers with the result of the pipeline itself, after the
    time the call took, and leaves the call completed in the executor. *)
Theorem run_async_in_time (rt : Runtime) (w : Registry.World) (duration : nat)
    (e : InferenceEngine) (reg : Registry.ModelRegistry) (task : string)
    (image_bytes : list Byte.byte) (timeout : option nat) (kwargs : gmap string Q) :
  (duration <= match timeout with Some t => t | None => 30%nat end)%nat ->
  let worker := run_inference rt w reg task image_bytes kwargs in
  let answer := run_async rt w duration e reg task image_bytes timeout kwargs in
  snd answer = result_of worker
  /\ now (fst (fst answer)) = (now e + duration)%nat
  /\ last (executor (fst (fst answer)))
     = Some {| outcome := result_of worker; remaining := 0; cancelled := false |}
  /\ snd (fst answer) = fst (fst worker).
Proof.
  intros Hfast worker answer.
  subst answer. unfold run_async. fold worker.
  destruct worker as [[reg' stages] result] eqn:Hworker.
  unfold future_result, submit. cbn [executor].
  rewrite last_snoc. cbn [remaining outcome].
  replace (default 30%nat timeout) with (match timeout with Some t => t | None => 30%nat end)
    by (destruct timeout; reflexivity).
  destruct (Nat.leb_spec duration (match timeout with Some t => t | None => 30%nat end))
    as [_|Hlate]; [|lia].
  cbn [fst snd]. unfold elapse. cbn [executor now].
  split; [reflexivity|]. split; [reflexivity|]. split; [|reflexivity].
  rewrite last_map_snoc. unfold advance. simpl. rewrite Nat.sub_diag. reflexivity.
Qed.

Lemma run_async_in_time_witness :
  snd (run_async toy_runtime Registry.working_world 3 (InferenceEngine_new None (Some 4%nat))
         Registry.ModelRegistry_new "detect" not_an_image (Some 10%nat) ∅)
  = Failed "Failed to decode image" "detect".
Proof.
  apply (run_async_in_time toy_runtime Registry.working_world 3
           (InferenceEngine_new None (Some 4%nat)) Registry.ModelRegistry_new "detect"
           not_an_image (Some 10%nat) ∅).
  simpl. lia.
Defined.

End Inference.

(** ** routes/api.py *)

Module Api.

Record UploadedFile := {
  filename : string;
  content : list Byte.byte
}.

(** The parts of the request [process_image] reads: [request.files['image']]
    and [request.form['model_type']], each possibly absent. *)
Record Request := {
  files_image : option UploadedFile;
  form_model_type : option string
}.

(** The entries of [current_app.config] the handler reads; [None] is an
    absent key. *)
Record Config := {
  MAX_CONTENT_LENGTH : option N;
  ENABLE_ANALYTICS : option bool;
  MODEL_DETECT : option string;
  MODEL_SEGMENT : option string;
  MODEL_CLASSIFY : option string;
  MODEL_POSE : option string
}.

Inductive Body :=
| ErrorBody (error : string)
| ResultBody (result : Inference.InferenceResult).

Record Response := {
  status : nat;
  body : Body
}.

(** The objects behind the handler: the inference engine, the model registry
    and the analytics sink. *)
Record Server := {
  engine : Inference.InferenceEngine;
  registry : Registry.ModelRegistry;
  analytics : Db.AnalyticsDB
}.

Definition fresh_server : Server :=
  {| engine := Inference.InferenceEngine_new None None;
     registry := Registry.ModelRegistry_new;
     analytics := Db.AnalyticsDB_new |}.

Definition tasks : list string := ["detect"; "segment"; "classify"; "pose"].

Definition model_configs (cfg : Config) : gmap string string :=
  list_to_map
    [("detect", default "models/weights/yolo11n.pt" (MODEL_DETECT cfg));
     ("segment", default "models/weights/yolo11n-seg.pt" (MODEL_SEGMENT cfg));
     ("classify", default "models/weights/yolo11n-cls.pt" (MODEL_CLASSIFY cfg));
     ("pose", default "models/weights/yolo11n-pose.pt" (MODEL_POSE cfg))].

(** The ['timing'] dictionary of a result. *)
Definition timing_dict (t : Inference.Timing) : gmap string Q :=
  <["decode_ms" := Inference.decode_ms t]>
    (<["inference_ms" := Inference.inference_ms t]>
       (<["process_ms" := Inference.process_ms t]>
          (<["total_ms" := Inference.total_ms t]> ∅))).

(** [result.get('timing', {})], [result.get('success', False)] and
    [result.get('error')]. *)
Definition result_timing (r : Inference.InferenceResult) : gmap string Q :=
  match r with
  | Inference.Succeeded _ t _ _ => timing_dict t
  | Inference.Failed _ _ => ∅
  end.

Definition result_success (r : Inference.InferenceResult) : bool :=
  match r with
  | Inference.Succeeded _ _ _ _ => true
  | Inference.Failed _ _ => false
  end.

Definition result_error (r : Inference.InferenceResult) : option string :=
  match r with
  | Inference.Succeeded _ _ _ _ => None
  | Inference.Failed e _ => Some e
  end.

Definition max_size (cfg : Config) : N := default (16 * 1024 * 1024)%N (MAX_CONTENT_LENGTH cfg).

Definition reject (srv : Server) (code : nat) (message : string) : Server * Response :=
  (srv, {| status := code; body := ErrorBody message |}).

(** [process_image]; [duration] is the time the pooled call of this request
    takes. *)
Definition process_image (rt : Inference.Runtime) (w : Registry.World) (cfg : Config)
    (duration : nat) (srv : Server) (req : Request) : Server * Response :=
  match files_image req with
  | None => reject srv 400 "No image file provided"
  | Some file =>
      if String.eqb (filename file) "" then reject srv 400 "No file selected"
      else
        let file_size := length (content file) in
        if (max_size cfg <? N.of_nat file_size)%N
        then reject srv 413
               (String.append "File too large. Maximum size: "
                  (String.append (pretty (max_size cfg / (1024 * 1024))%N) "MB"))
        else
          let model_type := default "detect" (form_model_type req) in
          if negb (Inference.member model_type tasks)
          then reject srv 400 "Invalid model type"
          else
            let '(e, reg, result) :=
              Inference.run_async rt w duration (engine srv) (registry srv)
                model_type (content file) (Some 30%nat) ∅ in
            let db :=
              if default false (ENABLE_ANALYTICS cfg)
              then Analytics.log_inference_run (analytics srv) model_type
                     (default "unknown" (model_configs cfg !! model_type))
                     (result_timing result) (result_success result)
                     (result_error result) (Z.of_nat file_size)
              else analytics srv in
            ({| engine := e; registry := reg; analytics := db |},
             {| status := 200; body := ResultBody result |})
  end.


(** What the server goes through: requests, and passes of the background
    writer. *)
Inductive Action :=
| Post (req : Request) (duration : nat)
| Flush (fault : option nat).

Definition act (rt : Inference.Runtime) (w : Registry.World) (cfg : Config)
    (srv : Server) (a : Action) : Server :=
  match a with
  | Post req duration => fst (process_image rt w cfg duration srv req)
  | Flush fault =>
      {| engine := engine srv; registry := registry srv;
         analytics := fst (Db.writer_iteration (analytics srv) fault) |}
  end.

Definition history (rt : Inference.Runtime) (w : Registry.World) (cfg : Config)
    (actions : list Action) : Server :=
  fold_left (act rt w cfg) actions fresh_server.

Definition default_config : Config :=
  {| MAX_CONTENT_LENGTH := None; ENABLE_ANALYTICS := Some true;
     MODEL_DETECT := None; MODEL_SEGMENT := None; MODEL_CLASSIFY := None;
     MODEL_POSE := None |}.

Definition jpeg_upload (model_type : option string) : Request :=
  {| files_image := Some {| filename := "test.jpg";
                            content := String.list_byte_of_string "JPEG" |};
     form_model_type := model_type |}.

(** *** Facts about the handler *)



(** Scenario: an image sent with model type "bogus" is turned away with 400
    before anything runs; the same image sent as "classify" is served. *)
Example bogus_task_rejected :
  process_image Inference.toy_runtime Registry.working_world default_config 1
    fresh_server (jpeg_upload (Some "bogus"))
  = (fresh_server, {| status := 400; body := ErrorBody "Invalid model type" |})
  /\ status (snd (process_image Inference.toy_runtime Registry.working_world
                    default_config 1 fresh_server (jpeg_upload (Some "classify"))))
     = 200%nat.
Proof.
  split; reflexivity.
Qed.





(** *** The fps that reaches the dashboard *)












(** Two uploads served and flushed: both runs are stored as successes with a
    positive inference time, and the grade is still ['poor']. *)
Example two_uploads_graded_poor :
  let t := Db.tables (analytics (history Inference.toy_runtime Registry.working_world
                                   default_config
                                   [Post (jpeg_upload (Some "classify")) 1;
                                    Post (jpeg_upload None) 1; Flush None])) in
  map Db.task_of (Db.inference_runs t) = ["classify"; "detect"]
  /\ map Db.is_success (Db.inference_runs t) = [true; true]
  /\ Analytics.grade (Analytics.get_performance_metrics (Some t)) = Analytics.Poor.
Proof.
  vm_compute. repeat split; reflexivity.
Qed.

End Api.
